(** * AudioStream (libAvKys / MultiSrc / ffmpeg): audio synchronisation,
      format negotiation and packet assembly.

    Shallow embedding of
    [src/libAvKys/Plugins/MultiSrc/src/ffmpeg/src/audiostream.cpp].

    - C++ [int], [int64_t], [uint64_t] are [Z] with the wrap-around
      written out.
    - [qreal] is IEEE-754 binary64, modelled bit-exactly by the Standard
      Library's [spec_float] (precision 53, emax 1024, round to nearest
      even); NaN is [S754_nan].
    - libavutil / libavcodec / libswresample / libm are external: their
      functions are the fields of the class [Libav].
    - A member function maps the world (the object and the Global Clock)
      to its result, the world after the call and the trace of its
      observable effects (clock writes, resampler calls, signals). *)

From Stdlib Require Import ZArith List Bool Lia.
From Stdlib Require Import SpecFloat.
Import ListNotations.

Local Open Scope Z_scope.

(** ** Machine integers *)

Module Int.

Definition INT_MIN : Z := - 2 ^ 31.
Definition INT_MAX : Z := 2 ^ 31 - 1.
Definition INT64_MIN : Z := - 2 ^ 63.
Definition INT64_MAX : Z := 2 ^ 63 - 1.

(** Two's complement reduction of [z] to [w] bits. *)
Definition wrap (w : Z) (z : Z) : Z :=
  (z + 2 ^ (w - 1)) mod 2 ^ w - 2 ^ (w - 1).

Definition int (z : Z) : Z := wrap 32 z.
Definition int64 (z : Z) : Z := wrap 64 z.

Definition is_int (z : Z) : Prop := INT_MIN <= z <= INT_MAX.
Definition is_int64 (z : Z) : Prop := INT64_MIN <= z <= INT64_MAX.

(** C++ integer operators on [int]: [/] truncates toward zero. *)
Definition add (a b : Z) : Z := int (a + b).
Definition sub (a b : Z) : Z := int (a - b).
Definition mul (a b : Z) : Z := int (a * b).
Definition div (a b : Z) : Z := int (Z.quot a b).

Definition add64 (a b : Z) : Z := int64 (a + b).

End Int.

(** ** qreal: IEEE-754 binary64 *)

Module QReal.

Definition prec : Z := 53.
Definition emax : Z := 1024.

Definition qreal : Type := spec_float.

Definition add : qreal -> qreal -> qreal := SFadd prec emax.
Definition sub : qreal -> qreal -> qreal := SFsub prec emax.
Definition mul : qreal -> qreal -> qreal := SFmul prec emax.
Definition div : qreal -> qreal -> qreal := SFdiv prec emax.
Definition opp : qreal -> qreal := SFopp.

(** C++ comparison operators; every one of them is false on NaN. *)
Definition lt (a b : qreal) : bool := SFltb a b.
Definition ge (a b : qreal) : bool := SFleb b a.

(** Conversion of an integer to [double] (round to nearest even). *)
Definition of_Z (z : Z) : qreal := binary_normalize prec emax z 0 false.

(** The value of the literal [m * 2^e], correctly rounded. *)
Definition of_bin (m e : Z) : qreal := binary_normalize prec emax m e false.

(** Conversion [int(d)] of a [double] to [int]: truncation toward zero.
    C++ leaves the conversion undefined when the truncated value does not
    fit; the model takes what x86-64 [cvttsd2si] returns there, the
    "integer indefinite" value [INT_MIN]. *)
Definition trunc (d : qreal) : option Z :=
  match d with
  | S754_zero _ => Some 0
  | S754_finite s m e =>
      let a := match e with
               | Zneg p => Z.shiftr (Zpos m) (Zpos p)
               | _ => Z.shiftl (Zpos m) e
               end in
      Some (if s then - a else a)
  | _ => None
  end.

Definition to_int (d : qreal) : Z :=
  match trunc d with
  | Some z => if (Int.INT_MIN <=? z) && (z <=? Int.INT_MAX) then z
              else Int.INT_MIN
  | None => Int.INT_MIN
  end.

(** [qIsNaN]. *)
Definition qIsNaN (d : qreal) : bool :=
  match d with
  | S754_nan => true
  | _ => false
  end.

(** [qAbs(t)] is [t >= 0 ? t : -t]. *)
Definition qAbs (t : qreal) : qreal :=
  if ge t (of_Z 0) then t else opp t.

End QReal.

Import QReal.

(** Literals of the source, correctly rounded to binary64. *)
Definition zero : qreal := of_Z 0.                      (* 0.0 *)
Definition one : qreal := of_Z 1.                       (* 1.0 *)
Definition two : qreal := of_Z 2.                       (* 2.0 *)
Definition c0_01 : qreal := div (of_Z 1) (of_Z 100).    (* 0.01 *)
Definition c0_1 : qreal := div (of_Z 1) (of_Z 10).      (* 0.1 *)

(** [exp(log(0.01) / 20)] as glibc computes it in binary64,
    0x1.96b230bcdc434p-1 = 0.7943282347242815. *)
Definition decayCoefficient : qreal := of_bin 0x196b230bcdc434 (-53).

(** ** QMap with integer keys: an association list sorted by key *)

Module QMap.
Section QMap.
Context {V : Type}.

Definition t : Type := list (Z * V).

Fixpoint insert (k : Z) (v : V) (m : t) : t :=
  match m with
  | [] => [(k, v)]
  | (k', v') :: m' =>
      if k <? k' then (k, v) :: m
      else if k =? k' then (k, v) :: m'
      else (k', v') :: insert k v m'
  end.

(** Construction from an initializer list: one [insert] per entry. *)
Definition of_list (l : list (Z * V)) : t :=
  fold_left (fun m kv => insert (fst kv) (snd kv) m) l [].

Fixpoint find (m : t) (k : Z) : option V :=
  match m with
  | [] => None
  | (k', v) :: m' => if k =? k' then Some v else find m' k
  end.

Definition contains (m : t) (k : Z) : bool :=
  match find m k with
  | Some _ => true
  | None => false
  end.

(** [value(key, defaultValue)]. *)
Definition value (m : t) (k : Z) (defaultValue : V) : V :=
  match find m k with
  | Some v => v
  | None => defaultValue
  end.

(** [key(value, defaultKey)]: the first key, in key order, mapped to
    [v]. *)
Fixpoint key (eqb : V -> V -> bool) (m : t) (v : V) (defaultKey : Z) : Z :=
  match m with
  | [] => defaultKey
  | (k, v') :: m' => if eqb v' v then k else key eqb m' v defaultKey
  end.
End QMap.
Arguments t : clear implicits.
End QMap.

(** ** Constants of the source and of the libav headers *)

(* No AV correction is done if too big error. *)
Definition AV_NOSYNC_THRESHOLD : qreal := of_Z 10.      (* 10.0 *)

(* Maximum audio speed change to get correct sync *)
Definition SAMPLE_CORRECTION_PERCENT_MAX : Z := 10.

(* We use about AUDIO_DIFF_AVG_NB A-V differences to make the average *)
Definition AUDIO_DIFF_AVG_NB : Z := 20.

(** [enum AVSampleFormat] (libavutil/samplefmt.h), as its integer values. *)
Definition AV_SAMPLE_FMT_U8 : Z := 0.
Definition AV_SAMPLE_FMT_S16 : Z := 1.
Definition AV_SAMPLE_FMT_S32 : Z := 2.
Definition AV_SAMPLE_FMT_FLT : Z := 3.

(** Channel layout masks (libavutil/channel_layout.h). *)
Definition AV_CH_LAYOUT_MONO : Z := 0x4.
Definition AV_CH_LAYOUT_STEREO : Z := 0x3.

(** [AV_NOPTS_VALUE] is [INT64_C(0x8000000000000000)]. *)
Definition AV_NOPTS_VALUE : Z := Int.INT64_MIN.

(** ** AkAudioCaps, AkPacket *)

Module AkAudioCaps.

(** The enumerators the source names, and [SampleFormat_none] and
    [Layout_none] for the default constructed value that
    [QMap::value(key)] returns for an absent key (no lookup of the
    source misses, see [convert_configurations]). *)
Inductive SampleFormat : Type :=
| SampleFormat_none
| SampleFormat_u8
| SampleFormat_s16
| SampleFormat_s32
| SampleFormat_flt.

Inductive ChannelLayout : Type :=
| Layout_none
| Layout_mono
| Layout_stereo.

Definition ChannelLayout_eqb (a b : ChannelLayout) : bool :=
  match a, b with
  | Layout_none, Layout_none
  | Layout_mono, Layout_mono
  | Layout_stereo, Layout_stereo => true
  | _, _ => false
  end.

Record t : Type := {
  isValid : bool;
  format : SampleFormat;
  bps : Z;
  channels : Z;
  rate : Z;
  layout : ChannelLayout;
  samples : Z;
  align : bool
}.

End AkAudioCaps.
Import AkAudioCaps(SampleFormat_none, SampleFormat_u8, SampleFormat_s16,
                   SampleFormat_s32, SampleFormat_flt,
                   Layout_none, Layout_mono, Layout_stereo).

Definition SampleFormatMap : Type := QMap.t AkAudioCaps.SampleFormat.

Definition initSampleFormatMap : SampleFormatMap :=
  QMap.of_list [
    (AV_SAMPLE_FMT_U8 , SampleFormat_u8 );
    (AV_SAMPLE_FMT_S16, SampleFormat_s16);
    (AV_SAMPLE_FMT_S32, SampleFormat_s32);
    (AV_SAMPLE_FMT_FLT, SampleFormat_flt)
  ].

Definition sampleFormats : SampleFormatMap := initSampleFormatMap.

Definition ChannelLayoutsMap : Type := QMap.t AkAudioCaps.ChannelLayout.

Definition initChannelFormatsMap : ChannelLayoutsMap :=
  QMap.of_list [
    (AV_CH_LAYOUT_MONO  , Layout_mono  );
    (AV_CH_LAYOUT_STEREO, Layout_stereo)
  ].

Definition channelLayouts : ChannelLayoutsMap := initChannelFormatsMap.

(** ** Frames and codec parameters *)

Module AVFrame.
Record t : Type := {
  pts : Z;                (* int64_t *)
  nb_samples : Z;         (* int *)
  sample_rate : Z;        (* int *)
  channel_layout : Z;     (* uint64_t *)
  format : Z;             (* int *)
  channels : Z;           (* int *)
  data : list Z
}.

Definition set_pts (f : t) (p : Z) : t :=
  {| pts := p; nb_samples := nb_samples f; sample_rate := sample_rate f;
     channel_layout := channel_layout f; format := format f;
     channels := channels f; data := data f |}.
End AVFrame.

Module AVCodecContext.
Record t : Type := {
  sample_fmt : Z;
  channel_layout : Z;
  sample_rate : Z
}.
End AVCodecContext.

(** ** External collaborators

    What the source calls and does not define: libm, libavutil,
    libavcodec, libswresample and [AkFrac].  A resampler context is a
    value of the abstract type [SwrContext]; a call that mutates the
    context returns the context after the call. *)

Class Libav (SwrContext AkFrac : Type) : Type := {
  (* AkFrac::value() *)
  AkFrac_value : AkFrac -> qreal;
  (* <cmath> *)
  exp : qreal -> qreal;
  log : qreal -> qreal;
  (* libavutil *)
  av_get_packed_sample_fmt : Z -> Z;
  av_get_bytes_per_sample : Z -> Z;
  av_get_channel_layout_nb_channels : Z -> Z;
  (* (nb_channels, nb_samples, sample_fmt, align) *)
  av_samples_get_buffer_size : Z -> Z -> Z -> Z -> Z;
  (* (frame, nb_channels, sample_fmt, buf_size, align) *)
  avcodec_fill_audio_frame : AVFrame.t -> Z -> Z -> Z -> Z -> Z;
  (* (s, sample_delta, compensation_distance): result and context *)
  swr_set_compensation :
    option SwrContext -> Z -> Z -> Z * option SwrContext;
  (* (s, out_ch_layout, out_sample_fmt, out_sample_rate,
         in_ch_layout, in_sample_fmt, in_sample_rate) *)
  swr_alloc_set_opts :
    option SwrContext -> Z -> Z -> Z -> Z -> Z -> Z -> option SwrContext;
  (* (s, output, input): result, context, output frame as the call
     leaves it, and the bytes written to the output buffer *)
  swr_convert_frame :
    SwrContext -> AVFrame.t -> AVFrame.t ->
    Z * SwrContext * AVFrame.t * list Z
}.

(** ** A function body with state, a trace and early [return] *)

Module Body.
Section Body.
Context {S E R : Type}.

Inductive Outcome (A : Type) : Type :=
| Next (a : A)       (* control reaches the next statement *)
| Return (r : R).    (* the function has returned [r] *)
Arguments Next {A} a.
Arguments Return {A} r.

Definition M (A : Type) : Type := S -> Outcome A * S * list E.

Definition ret {A} (a : A) : M A := fun s => (Next a, s, []).

Definition bind {A B} (m : M A) (k : A -> M B) : M B :=
  fun s =>
    match m s with
    | (Next a, s1, t1) =>
        let '(o, s2, t2) := k a s1 in (o, s2, t1 ++ t2)
    | (Return r, s1, t1) => (Return r, s1, t1)
    end.

Definition return_ {A} (r : R) : M A := fun s => (Return r, s, []).
Definition gets {A} (f : S -> A) : M A := fun s => (Next (f s), s, []).
Definition modify (f : S -> S) : M unit := fun s => (Next tt, f s, []).
Definition emit (e : E) : M unit := fun s => (Next tt, s, [e]).

(** Running a body whose last statement is a [return]. *)
Definition call (m : M R) : S -> R * S * list E :=
  fun s =>
    match m s with
    | (Next r, s1, t) => (r, s1, t)
    | (Return r, s1, t) => (r, s1, t)
    end.
End Body.
Arguments Next {R A} a.
Arguments Return {R A} r.
Arguments M : clear implicits.
End Body.
Import Body(Next, Return).

Declare Scope body_scope.
Delimit Scope body_scope with body.
Notation "x <- m ;; k" := (Body.bind m (fun x => k))
  (at level 100, m at next level, right associativity) : body_scope.
Notation "m ;;; k" := (Body.bind m (fun _ => k))
  (at level 100, right associativity) : body_scope.

(** ** Packets *)

Module AkAudioPacket.
Record t {AkFrac : Type} : Type := {
  caps : AkAudioCaps.t;
  buffer : list Z;
  pts : Z;                (* qint64 *)
  timeBase : AkFrac;
  index : Z;              (* int *)
  id : Z                  (* qint64 *)
}.
Arguments t : clear implicits.
End AkAudioPacket.

(** [AkPacket()] is the empty packet; [toPacket()] of an audio packet
    carries the audio packet. *)
Inductive AkPacket {AkFrac : Type} : Type :=
| AkPacket_empty
| AkPacket_audio (p : AkAudioPacket.t AkFrac).
Arguments AkPacket : clear implicits.

(** ** The stream object

    The members of [AudioStream] and those of its base [AbstractStream]
    that the source reads or writes. *)

Module AudioStream.
Record t {SwrContext AkFrac : Type} : Type := {
  (* AbstractStream *)
  index : Z;                              (* uint *)
  id : Z;                                 (* qint64 *)
  timeBase : AkFrac;
  codecContext : AVCodecContext.t;
  m_maxData : Z;
  m_clockDiff : qreal;
  (* AudioStream *)
  m_pts : Z;                              (* qint64 *)
  m_resampleContext : option SwrContext;  (* NULL is None *)
  audioDiffCum : qreal;
  audioDiffAvgCoef : qreal;
  audioDiffAvgCount : Z                   (* int *)
}.
Arguments t : clear implicits.

Section Setters.
Context {SwrContext AkFrac : Type}.
Local Notation "'T'" := (t SwrContext AkFrac).

Definition set_m_clockDiff (v : qreal) (a : T) : T :=
  {| index := index a; id := id a; timeBase := timeBase a;
     codecContext := codecContext a; m_maxData := m_maxData a;
     m_clockDiff := v; m_pts := m_pts a;
     m_resampleContext := m_resampleContext a;
     audioDiffCum := audioDiffCum a;
     audioDiffAvgCoef := audioDiffAvgCoef a;
     audioDiffAvgCount := audioDiffAvgCount a |}.

Definition set_m_pts (v : Z) (a : T) : T :=
  {| index := index a; id := id a; timeBase := timeBase a;
     codecContext := codecContext a; m_maxData := m_maxData a;
     m_clockDiff := m_clockDiff a; m_pts := v;
     m_resampleContext := m_resampleContext a;
     audioDiffCum := audioDiffCum a;
     audioDiffAvgCoef := audioDiffAvgCoef a;
     audioDiffAvgCount := audioDiffAvgCount a |}.

Definition set_m_resampleContext (v : option SwrContext) (a : T) : T :=
  {| index := index a; id := id a; timeBase := timeBase a;
     codecContext := codecContext a; m_maxData := m_maxData a;
     m_clockDiff := m_clockDiff a; m_pts := m_pts a;
     m_resampleContext := v;
     audioDiffCum := audioDiffCum a;
     audioDiffAvgCoef := audioDiffAvgCoef a;
     audioDiffAvgCount := audioDiffAvgCount a |}.

Definition set_audioDiffCum (v : qreal) (a : T) : T :=
  {| index := index a; id := id a; timeBase := timeBase a;
     codecContext := codecContext a; m_maxData := m_maxData a;
     m_clockDiff := m_clockDiff a; m_pts := m_pts a;
     m_resampleContext := m_resampleContext a;
     audioDiffCum := v;
     audioDiffAvgCoef := audioDiffAvgCoef a;
     audioDiffAvgCount := audioDiffAvgCount a |}.

Definition set_audioDiffAvgCount (v : Z) (a : T) : T :=
  {| index := index a; id := id a; timeBase := timeBase a;
     codecContext := codecContext a; m_maxData := m_maxData a;
     m_clockDiff := m_clockDiff a; m_pts := m_pts a;
     m_resampleContext := m_resampleContext a;
     audioDiffCum := audioDiffCum a;
     audioDiffAvgCoef := audioDiffAvgCoef a;
     audioDiffAvgCount := v |}.
End Setters.
End AudioStream.

(** The world a member function runs in: the object and the Global
    Clock ([globalClock()->clock()] reads [clock]). *)
Record World {SwrContext AkFrac : Type} : Type := {
  this : AudioStream.t SwrContext AkFrac;
  clock : qreal
}.
Arguments World : clear implicits.

(** Observable effects, in program order. *)
Inductive Event {AkFrac : Type} : Type :=
| EvSetClock (pts : qreal)                      (* globalClock()->setClock *)
| EvSetCompensation (sample_delta compensation_distance : Z)
| EvAllocSetOpts (out_ch_layout out_sample_fmt out_sample_rate
                  in_ch_layout in_sample_fmt in_sample_rate : Z)
| EvConvertFrame (oFrame iFrame : AVFrame.t)
| EvDebug (error : Z)                           (* qDebug() *)
| EvOStream (oPacket : AkPacket AkFrac)         (* emit oStream *)
| EvFrameSent.                                  (* emit frameSent *)
Arguments Event : clear implicits.

Section AudioStream.
Context {SwrContext AkFrac : Type} {L : Libav SwrContext AkFrac}.

Local Notation "'Stream'" := (AudioStream.t SwrContext AkFrac).
Local Notation "'W'" := (World SwrContext AkFrac).
Local Notation "'Packet'" := (AkPacket AkFrac).
Local Notation "'Ev'" := (Event AkFrac).
Local Notation "'M'" := (Body.M W Ev Packet).

Local Open Scope body_scope.

Definition on_this (f : Stream -> Stream) : M unit :=
  Body.modify (fun w : W => {| this := f (this w); clock := clock w |}).

(** [globalClock()->setClock(c)]. *)
Definition setClock (c : qreal) : M unit :=
  Body.modify (fun w : W => {| this := this w; clock := c |}) ;;;
  Body.emit (EvSetClock c).

(** [qBound(min, val, max)] is [qMax(min, qMin(max, val))]. *)
Definition qMin (a b : Z) : Z := if a <? b then a else b.
Definition qMax (a b : Z) : Z := if a <? b then b else a.
Definition qBound (min val max : Z) : Z := qMax min (qMin max val).

(** The constructor, given the members the base class initialises. *)
Definition AudioStream_new (index id : Z) (timeBase : AkFrac)
    (codecContext : AVCodecContext.t) (clockDiff : qreal) : Stream :=
  {| AudioStream.index := index;
     AudioStream.id := id;
     AudioStream.timeBase := timeBase;
     AudioStream.codecContext := codecContext;
     AudioStream.m_clockDiff := clockDiff;
     AudioStream.m_maxData := 9;
     AudioStream.m_pts := 0;
     AudioStream.m_resampleContext := None;
     AudioStream.audioDiffCum := zero;
     AudioStream.audioDiffAvgCoef :=
       exp (div (log c0_01) (of_Z AUDIO_DIFF_AVG_NB));
     AudioStream.audioDiffAvgCount := 0 |}.

(** [AudioStream::caps]. *)
Definition caps (a : Stream) : AkAudioCaps.t :=
  let iFormat := AVCodecContext.sample_fmt (AudioStream.codecContext a) in
  let oFormat := av_get_packed_sample_fmt iFormat in
  let oFormat := if QMap.contains sampleFormats oFormat then oFormat
                 else AV_SAMPLE_FMT_FLT in
  let layout :=
    QMap.value channelLayouts
      (AVCodecContext.channel_layout (AudioStream.codecContext a))
      Layout_stereo in
  let channelLayout :=
    QMap.key AkAudioCaps.ChannelLayout_eqb channelLayouts layout
      AV_CH_LAYOUT_STEREO in
  {| AkAudioCaps.isValid := true;
     AkAudioCaps.format := QMap.value sampleFormats oFormat SampleFormat_none;
     AkAudioCaps.bps := Int.mul 8 (av_get_bytes_per_sample oFormat);
     AkAudioCaps.channels := av_get_channel_layout_nb_channels channelLayout;
     AkAudioCaps.rate := AVCodecContext.sample_rate (AudioStream.codecContext a);
     AkAudioCaps.layout := layout;
     AkAudioCaps.samples := 0;
     AkAudioCaps.align := false |}.

(** [AudioStream::convert], lines 142-187: "Synchronize audio".  The
    block leaves [pts], [diff] and [wantedSamples] to the rest of the
    function; the result is [wantedSamples]. *)
Definition synchronize (iFrame : AVFrame.t) : M Z :=
  timeBase <- Body.gets (fun w : W => AudioStream.timeBase (this w)) ;;
  let pts := mul (of_Z (AVFrame.pts iFrame)) (AkFrac_value timeBase) in
  clock <- Body.gets (fun w : W => clock w) ;;
  let diff := sub pts clock in
  let wantedSamples := AVFrame.nb_samples iFrame in
  wantedSamples <-
    (if negb (qIsNaN diff) && lt (qAbs diff) AV_NOSYNC_THRESHOLD then
       audioDiffCum <- Body.gets (fun w : W => AudioStream.audioDiffCum (this w)) ;;
       audioDiffAvgCoef <- Body.gets (fun w : W => AudioStream.audioDiffAvgCoef (this w)) ;;
       on_this (AudioStream.set_audioDiffCum
                  (add diff (mul audioDiffAvgCoef audioDiffCum))) ;;;
       audioDiffAvgCount <- Body.gets (fun w : W => AudioStream.audioDiffAvgCount (this w)) ;;
       if audioDiffAvgCount <? AUDIO_DIFF_AVG_NB then
         (* not enough measures to have a correct estimate *)
         on_this (AudioStream.set_audioDiffAvgCount (Int.add audioDiffAvgCount 1)) ;;;
         Body.ret wantedSamples
       else
         (* estimate the A-V difference *)
         audioDiffCum <- Body.gets (fun w : W => AudioStream.audioDiffCum (this w)) ;;
         let avgDiff := mul audioDiffCum (sub one audioDiffAvgCoef) in
         (* since we do not have a precise anough audio fifo fullness,
            we correct audio sync only if larger than this threshold *)
         let diffThreshold :=
           div (mul two (of_Z (AVFrame.nb_samples iFrame)))
               (of_Z (AVFrame.sample_rate iFrame)) in
         if ge (qAbs avgDiff) diffThreshold then
           let wantedSamples :=
             Int.add (AVFrame.nb_samples iFrame)
                     (to_int (mul diff (of_Z (AVFrame.sample_rate iFrame)))) in
           let minSamples :=
             Int.div (Int.mul (AVFrame.nb_samples iFrame)
                              (100 - SAMPLE_CORRECTION_PERCENT_MAX)) 100 in
           let maxSamples :=
             Int.div (Int.mul (AVFrame.nb_samples iFrame)
                              (100 + SAMPLE_CORRECTION_PERCENT_MAX)) 100 in
           let wantedSamples := qBound minSamples wantedSamples maxSamples in
           if negb (wantedSamples =? AVFrame.nb_samples iFrame) then
             ctx <- Body.gets (fun w : W => AudioStream.m_resampleContext (this w)) ;;
             let sample_delta := Int.sub wantedSamples (AVFrame.nb_samples iFrame) in
             let '(r, ctx') := swr_set_compensation ctx sample_delta wantedSamples in
             Body.emit (EvSetCompensation sample_delta wantedSamples) ;;;
             on_this (AudioStream.set_m_resampleContext ctx') ;;;
             if r <? 0 then Body.return_ AkPacket_empty
             else Body.ret wantedSamples
           else Body.ret wantedSamples
         else Body.ret wantedSamples
     else
       (* Too big difference: may be initial PTS errors, so
          reset A-V filter *)
       on_this (AudioStream.set_audioDiffAvgCount 0) ;;;
       on_this (AudioStream.set_audioDiffCum zero) ;;;
       Body.ret wantedSamples) ;;
  (if ge (qAbs diff) AV_NOSYNC_THRESHOLD then setClock pts
   else Body.ret tt) ;;;
  on_this (AudioStream.set_m_clockDiff diff) ;;;
  Body.ret wantedSamples.

(** [AudioStream::convert], lines 189-267: negotiation, resampling and
    packet assembly, given [wantedSamples]. *)
Definition resample (iFrame : AVFrame.t) (wantedSamples : Z) : M Packet :=
  let oSampleRate := AVFrame.sample_rate iFrame in
  let oLayout :=
    if QMap.contains channelLayouts (AVFrame.channel_layout iFrame)
    then AVFrame.channel_layout iFrame
    else AV_CH_LAYOUT_STEREO in
  let oChannels := av_get_channel_layout_nb_channels oLayout in
  let iFormat := AVFrame.format iFrame in
  let oFormat := av_get_packed_sample_fmt iFormat in
  let oFormat := if QMap.contains sampleFormats oFormat then oFormat
                 else AV_SAMPLE_FMT_FLT in
  ctx <- Body.gets (fun w : W => AudioStream.m_resampleContext (this w)) ;;
  let ctx' :=
    swr_alloc_set_opts ctx
      (Int.int64 oLayout) oFormat oSampleRate
      (Int.int64 (AVFrame.channel_layout iFrame)) iFormat
      (AVFrame.sample_rate iFrame) in
  Body.emit (EvAllocSetOpts
               (Int.int64 oLayout) oFormat oSampleRate
               (Int.int64 (AVFrame.channel_layout iFrame)) iFormat
               (AVFrame.sample_rate iFrame)) ;;;
  on_this (AudioStream.set_m_resampleContext ctx') ;;;
  match ctx' with
  | None => Body.return_ AkPacket_empty
  | Some s =>
      let oFrame :=
        {| AVFrame.format := oFormat;
           AVFrame.channels := oChannels;
           AVFrame.channel_layout := oLayout;
           AVFrame.sample_rate := oSampleRate;
           AVFrame.nb_samples := wantedSamples;
           AVFrame.pts := AVFrame.pts iFrame;
           AVFrame.data := [] |} in
      (* Calculate the size of the audio buffer. *)
      let frameSize :=
        av_samples_get_buffer_size oChannels (AVFrame.nb_samples oFrame)
                                   oFormat 1 in
      if avcodec_fill_audio_frame oFrame oChannels oFormat frameSize 1 <? 0
      then Body.return_ AkPacket_empty
      else
        let '(error, s', oFrame', oBuffer) := swr_convert_frame s oFrame iFrame in
        Body.emit (EvConvertFrame oFrame iFrame) ;;;
        on_this (AudioStream.set_m_resampleContext (Some s')) ;;;
        if error <? 0 then
          Body.emit (EvDebug error) ;;;
          Body.return_ AkPacket_empty
        else
          timeBase <- Body.gets (fun w : W => AudioStream.timeBase (this w)) ;;
          index <- Body.gets (fun w : W => AudioStream.index (this w)) ;;
          id <- Body.gets (fun w : W => AudioStream.id (this w)) ;;
          Body.ret (AkPacket_audio
            {| AkAudioPacket.caps :=
                 {| AkAudioCaps.isValid := true;
                    AkAudioCaps.format :=
                      QMap.value sampleFormats oFormat SampleFormat_none;
                    AkAudioCaps.bps := Int.mul 8 (av_get_bytes_per_sample oFormat);
                    AkAudioCaps.channels := oChannels;
                    AkAudioCaps.rate := AVFrame.sample_rate iFrame;
                    AkAudioCaps.layout :=
                      QMap.value channelLayouts oLayout Layout_none;
                    AkAudioCaps.samples := AVFrame.nb_samples oFrame';
                    AkAudioCaps.align := false |};
               AkAudioPacket.buffer := oBuffer;
               AkAudioPacket.pts := AVFrame.pts iFrame;
               AkAudioPacket.timeBase := timeBase;
               AkAudioPacket.index := Int.int index;
               AkAudioPacket.id := id |})
  end.

(** [AudioStream::convert]. *)
Definition convert (iFrame : AVFrame.t) : W -> Packet * W * list Ev :=
  Body.call (wantedSamples <- synchronize iFrame ;;
             resample iFrame wantedSamples).

(** [AudioStream::processData]; the frame is returned as the function
    leaves it. *)
Definition processData (frame : AVFrame.t) : W -> AVFrame.t * W * list Ev :=
  fun w =>
    let frame :=
      AVFrame.set_pts frame
        (if negb (AVFrame.pts frame =? AV_NOPTS_VALUE) then AVFrame.pts frame
         else AudioStream.m_pts (this w)) in
    let '(oPacket, w1, t) := convert frame w in
    (frame,
     {| this := AudioStream.set_m_pts
                  (Int.add64 (AVFrame.pts frame) (AVFrame.nb_samples frame))
                  (this w1);
        clock := clock w1 |},
     t ++ [EvOStream oPacket; EvFrameSent]).

(** *** Quantities of [convert] named for the statements below *)

(** [pts]: the frame's presentation time in seconds (line 143). *)
Definition pts_seconds (a : Stream) (iFrame : AVFrame.t) : qreal :=
  mul (of_Z (AVFrame.pts iFrame)) (AkFrac_value (AudioStream.timeBase a)).

(** [diff] (line 144). *)
Definition clock_diff (w : W) (iFrame : AVFrame.t) : qreal :=
  sub (pts_seconds (this w) iFrame) (clock w).

(** The test of line 148. *)
Definition in_sync (diff : qreal) : bool :=
  negb (qIsNaN diff) && lt (qAbs diff) AV_NOSYNC_THRESHOLD.

(** The test of line 184. *)
Definition no_sync (diff : qreal) : bool :=
  ge (qAbs diff) AV_NOSYNC_THRESHOLD.

(** Lines 163-166: the clamped target. *)
Definition clamped_target (diff : qreal) (nb_samples sample_rate : Z) : Z :=
  qBound (Int.div (Int.mul nb_samples (100 - SAMPLE_CORRECTION_PERCENT_MAX)) 100)
         (Int.add nb_samples (to_int (mul diff (of_Z sample_rate))))
         (Int.div (Int.mul nb_samples (100 + SAMPLE_CORRECTION_PERCENT_MAX)) 100).

(** The estimator of lines 148-182 as a function of the three members it
    uses: the new [audioDiffCum], the new [audioDiffAvgCount] and
    [wantedSamples].  [synchronize_estimate] below proves that
    [synchronize] computes exactly this. *)
Definition estimate (audioDiffAvgCoef audioDiffCum : qreal)
    (audioDiffAvgCount : Z) (diff : qreal) (nb_samples sample_rate : Z)
    : qreal * Z * Z :=
  if in_sync diff then
    let cum := add diff (mul audioDiffAvgCoef audioDiffCum) in
    if audioDiffAvgCount <? AUDIO_DIFF_AVG_NB then
      (cum, Int.add audioDiffAvgCount 1, nb_samples)
    else if ge (qAbs (mul cum (sub one audioDiffAvgCoef)))
               (div (mul two (of_Z nb_samples)) (of_Z sample_rate)) then
      (cum, audioDiffAvgCount, clamped_target diff nb_samples sample_rate)
    else (cum, audioDiffAvgCount, nb_samples)
  else (zero, 0, nb_samples).

(** Lines 189-191 and 194-196 (and 82-84 of [caps]): the negotiated
    layout and format. *)
Definition negotiated_layout (channel_layout : Z) : Z :=
  if QMap.contains channelLayouts channel_layout then channel_layout
  else AV_CH_LAYOUT_STEREO.

Definition negotiated_format (iFormat : Z) : Z :=
  let oFormat := av_get_packed_sample_fmt iFormat in
  if QMap.contains sampleFormats oFormat then oFormat else AV_SAMPLE_FMT_FLT.

(** Lines 212-219: the descriptor of the output frame. *)
Definition target_frame (iFrame : AVFrame.t) (wantedSamples : Z) : AVFrame.t :=
  {| AVFrame.format := negotiated_format (AVFrame.format iFrame);
     AVFrame.channels :=
       av_get_channel_layout_nb_channels
         (negotiated_layout (AVFrame.channel_layout iFrame));
     AVFrame.channel_layout := negotiated_layout (AVFrame.channel_layout iFrame);
     AVFrame.sample_rate := AVFrame.sample_rate iFrame;
     AVFrame.nb_samples := wantedSamples;
     AVFrame.pts := AVFrame.pts iFrame;
     AVFrame.data := [] |}.

(** Lines 198-207: the configuration requested from the resampler. *)
Definition configuration (iFrame : AVFrame.t) : Z * Z * Z * Z * Z * Z :=
  (Int.int64 (negotiated_layout (AVFrame.channel_layout iFrame)),
   negotiated_format (AVFrame.format iFrame),
   AVFrame.sample_rate iFrame,
   Int.int64 (AVFrame.channel_layout iFrame),
   AVFrame.format iFrame,
   AVFrame.sample_rate iFrame).

Definition configure_event (iFrame : AVFrame.t) : Ev :=
  EvAllocSetOpts
    (Int.int64 (negotiated_layout (AVFrame.channel_layout iFrame)))
    (negotiated_format (AVFrame.format iFrame))
    (AVFrame.sample_rate iFrame)
    (Int.int64 (AVFrame.channel_layout iFrame))
    (AVFrame.format iFrame)
    (AVFrame.sample_rate iFrame).

(** Lines 251-259: the caps of a produced packet of [samples] samples. *)
Definition packet_caps (iFrame : AVFrame.t) (samples : Z) : AkAudioCaps.t :=
  {| AkAudioCaps.isValid := true;
     AkAudioCaps.format :=
       QMap.value sampleFormats (negotiated_format (AVFrame.format iFrame))
                  SampleFormat_none;
     AkAudioCaps.bps :=
       Int.mul 8 (av_get_bytes_per_sample
                    (negotiated_format (AVFrame.format iFrame)));
     AkAudioCaps.channels :=
       av_get_channel_layout_nb_channels
         (negotiated_layout (AVFrame.channel_layout iFrame));
     AkAudioCaps.rate := AVFrame.sample_rate iFrame;
     AkAudioCaps.layout :=
       QMap.value channelLayouts
                  (negotiated_layout (AVFrame.channel_layout iFrame))
                  Layout_none;
     AkAudioCaps.samples := samples;
     AkAudioCaps.align := false |}.

(** Lines 251-267: the packet produced from [samples] converted samples
    in [oBuffer]. *)
Definition produced_packet (a : Stream) (iFrame : AVFrame.t)
    (samples : Z) (oBuffer : list Z) : Packet :=
  AkPacket_audio
    {| AkAudioPacket.caps := packet_caps iFrame samples;
       AkAudioPacket.buffer := oBuffer;
       AkAudioPacket.pts := AVFrame.pts iFrame;
       AkAudioPacket.timeBase := AudioStream.timeBase a;
       AkAudioPacket.index := Int.int (AudioStream.index a);
       AkAudioPacket.id := AudioStream.id a |}.

(** The three ways [convert] ends once the resampler is configured: the
    packet it returns and the events after the configuration. *)
Inductive outcome (a : Stream) (iFrame : AVFrame.t) (ws : Z)
    : Packet -> list Ev -> Prop :=
| outcome_unconverted :
    (* swr_alloc_set_opts or avcodec_fill_audio_frame failed *)
    outcome a iFrame ws AkPacket_empty []
| outcome_failed (error : Z) :
    error < 0 ->
    outcome a iFrame ws AkPacket_empty
            [EvConvertFrame (target_frame iFrame ws) iFrame; EvDebug error]
| outcome_produced (samples : Z) (oBuffer : list Z) :
    outcome a iFrame ws (produced_packet a iFrame samples oBuffer)
            [EvConvertFrame (target_frame iFrame ws) iFrame].

(** The negotiation as the specification words it: the packed
    equivalent if it is in the supported set, else 32-bit float; the
    layout if it is mono or stereo, else stereo. *)
Definition supported_formats : list Z :=
  [AV_SAMPLE_FMT_U8; AV_SAMPLE_FMT_S16; AV_SAMPLE_FMT_S32; AV_SAMPLE_FMT_FLT].

Definition supported_layouts : list Z :=
  [AV_CH_LAYOUT_MONO; AV_CH_LAYOUT_STEREO].

Definition spec_format (packed : Z) : Z :=
  if existsb (Z.eqb packed) supported_formats then packed
  else AV_SAMPLE_FMT_FLT.

Definition spec_layout (channel_layout : Z) : Z :=
  if existsb (Z.eqb channel_layout) supported_layouts then channel_layout
  else AV_CH_LAYOUT_STEREO.

(** The members a call of [convert] leaves alone. *)
Definition same_identity (a b : Stream) : Prop :=
  AudioStream.index b = AudioStream.index a /\
  AudioStream.id b = AudioStream.id a /\
  AudioStream.timeBase b = AudioStream.timeBase a /\
  AudioStream.codecContext b = AudioStream.codecContext a /\
  AudioStream.m_maxData b = AudioStream.m_maxData a /\
  AudioStream.m_pts b = AudioStream.m_pts a /\
  AudioStream.audioDiffAvgCoef b = AudioStream.audioDiffAvgCoef a.

(** The compensation requests and the clock writes of a trace. *)
Definition compensations (t : list Ev) : list (Z * Z) :=
  flat_map (fun e => match e with
                     | EvSetCompensation d n => [(d, n)]
                     | _ => []
                     end) t.

Definition clock_writes (t : list Ev) : list qreal :=
  flat_map (fun e => match e with
                     | EvSetClock c => [c]
                     | _ => []
                     end) t.

Definition configurations (t : list Ev) : list (Z * Z * Z * Z * Z * Z) :=
  flat_map (fun e => match e with
                     | EvAllocSetOpts ol of_ or_ il if_ ir =>
                         [(ol, of_, or_, il, if_, ir)]
                     | _ => []
                     end) t.

Definition conversions (t : list Ev) : list (AVFrame.t * AVFrame.t) :=
  flat_map (fun e => match e with
                     | EvConvertFrame o i => [(o, i)]
                     | _ => []
                     end) t.

(** The estimator run over the [(diff, nb_samples, sample_rate)] of
    consecutive frames: per frame, the compensation requested (if any)
    and [audioDiffAvgCount] after the frame. *)
Fixpoint estimate_all (audioDiffAvgCoef audioDiffCum : qreal)
    (audioDiffAvgCount : Z) (frames : list (qreal * Z * Z))
    : list (list (Z * Z) * Z) :=
  match frames with
  | [] => []
  | (diff, nb_samples, sample_rate) :: rest =>
      let '(cum, cnt, ws) :=
        estimate audioDiffAvgCoef audioDiffCum audioDiffAvgCount
                 diff nb_samples sample_rate in
      ((if ws =? nb_samples then [] else [(Int.sub ws nb_samples, ws)]), cnt)
        :: estimate_all audioDiffAvgCoef cum cnt rest
  end.

(** The Global Clock is shared: between two frames it advances and the
    video stream may write it.  [at_clock c w] is the world in which the
    clock reads [c]. *)
Definition at_clock (c : qreal) (w : W) : W :=
  {| this := this w; clock := c |}.

(** Frames converted in arrival order, each with the reading of the
    clock at its call; one result per frame. *)
Fixpoint convert_all (inputs : list (AVFrame.t * qreal)) (w : W)
    : list (Packet * W * list Ev) :=
  match inputs with
  | [] => []
  | (iFrame, c) :: rest =>
      let r := convert iFrame (at_clock c w) in
      r :: convert_all rest (snd (fst r))
  end.

End AudioStream.

(** ** Test doubles for the external collaborators *)

Module Mock.

(** The two values of libm the constructor needs, as glibc computes
    them in binary64: [log(0.01)] and [exp(log(0.01) / 20)]. *)
Definition log_0_01 : qreal := of_bin (-0x126bb1bbb55515) (-50).

Definition log (x : qreal) : qreal :=
  if SFeqb x c0_01 then log_0_01 else S754_nan.

Definition exp (x : qreal) : qreal :=
  if SFeqb x (div log_0_01 (of_Z 20)) then decayCoefficient else S754_nan.

(** libavutil's sample formats: U8, S16, S32, FLT, DBL, their planar
    variants, S64 and S64P. *)
Definition av_get_packed_sample_fmt (f : Z) : Z :=
  if (0 <=? f) && (f <=? 4) then f
  else if (5 <=? f) && (f <=? 9) then f - 5
  else if (10 <=? f) && (f <=? 11) then 10
  else -1.

Definition av_get_bytes_per_sample (f : Z) : Z :=
  nth (Z.to_nat f) [1; 2; 4; 4; 8; 1; 2; 4; 4; 8; 8; 8] 0.

Definition av_get_channel_layout_nb_channels (layout : Z) : Z :=
  Z.of_nat (length (filter (Z.testbit layout) (map Z.of_nat (seq 0 64)))).

Definition av_samples_get_buffer_size (nb_channels nb_samples fmt align : Z) : Z :=
  let sample_size := av_get_bytes_per_sample fmt in
  if (sample_size =? 0) || (nb_channels <=? 0) || (nb_samples <=? 0)
  then -22
  else nb_channels * nb_samples * sample_size.

Definition avcodec_fill_audio_frame (frame : AVFrame.t)
    (nb_channels fmt buf_size align : Z) : Z :=
  let needed :=
    av_samples_get_buffer_size nb_channels (AVFrame.nb_samples frame) fmt align in
  if needed <? 0 then needed
  else if buf_size <? needed then -22
  else needed.

Definition swr_set_compensation (s : option unit) (sample_delta distance : Z)
    : Z * option unit :=
  match s with
  | None => (-22, None)
  | Some _ => if distance <? 0 then (-22, s) else (0, s)
  end.

Definition swr_alloc_set_opts (s : option unit) (ol of_ or_ il if_ ir : Z)
    : option unit := Some tt.

Definition silence (frame : AVFrame.t) : list Z :=
  repeat 0 (Z.to_nat (av_samples_get_buffer_size
                        (AVFrame.channels frame) (AVFrame.nb_samples frame)
                        (AVFrame.format frame) 1)).

Definition swr_convert_frame (s : unit) (output input : AVFrame.t)
    : Z * unit * AVFrame.t * list Z :=
  (0, s, output, silence output).

(** A resampler whose conversion always fails. *)
Definition swr_convert_frame_failing (s : unit) (output input : AVFrame.t)
    : Z * unit * AVFrame.t * list Z :=
  (-1, s, output, silence output).

Definition AkFrac_value (f : Z * Z) : qreal :=
  div (of_Z (fst f)) (of_Z (snd f)).

Definition libav : Libav unit (Z * Z) :=
  Build_Libav unit (Z * Z) AkFrac_value exp log
    av_get_packed_sample_fmt av_get_bytes_per_sample
    av_get_channel_layout_nb_channels av_samples_get_buffer_size
    avcodec_fill_audio_frame swr_set_compensation swr_alloc_set_opts
    swr_convert_frame.

Definition libav_failing : Libav unit (Z * Z) :=
  Build_Libav unit (Z * Z) AkFrac_value exp log
    av_get_packed_sample_fmt av_get_bytes_per_sample
    av_get_channel_layout_nb_channels av_samples_get_buffer_size
    avcodec_fill_audio_frame swr_set_compensation swr_alloc_set_opts
    swr_convert_frame_failing.

(** A 48 kHz stereo S16 stream with time base 1/10 and a frame of 1024
    samples stamped [pts]. *)
Definition codec : AVCodecContext.t :=
  {| AVCodecContext.sample_fmt := AV_SAMPLE_FMT_S16;
     AVCodecContext.channel_layout := AV_CH_LAYOUT_STEREO;
     AVCodecContext.sample_rate := 48000 |}.

Definition fresh (L : Libav unit (Z * Z)) : World unit (Z * Z) :=
  {| this := @AudioStream_new _ _ L 0 0 (1, 10) codec zero; clock := zero |}.

Definition frame (pts : Z) : AVFrame.t :=
  {| AVFrame.pts := pts;
     AVFrame.nb_samples := 1024;
     AVFrame.sample_rate := 48000;
     AVFrame.channel_layout := AV_CH_LAYOUT_STEREO;
     AVFrame.format := AV_SAMPLE_FMT_S16;
     AVFrame.channels := 2;
     AVFrame.data := [] |}.

(** The stream after [n] frames stamped [pts], the clock reading [c] at
    each of them. *)
Definition after (L : Libav unit (Z * Z)) (n : nat) (pts : Z) (c : qreal)
    : World unit (Z * Z) :=
  last (map (fun r => snd (fst r))
            (@convert_all _ _ L (repeat (frame pts, c) n) (fresh L)))
       (fresh L).

(** A clock reading 0.2: a frame stamped 1 is 0.1 s late against it. *)
Definition c0_2 : qreal := div (of_Z 1) (of_Z 5).

(** The same stream with the clock reading [c]. *)
Definition fresh_at (L : Libav unit (Z * Z)) (c : qreal) : World unit (Z * Z) :=
  {| this := this (fresh L); clock := c |}.

End Mock.

(** ** Runs of [processData] and the signals of a trace *)

Section Runs.
Context {SwrContext AkFrac : Type} {L : Libav SwrContext AkFrac}.

(** Frames processed in arrival order, each with the reading of the
    clock at its call; one result per frame. *)
Fixpoint processData_all (inputs : list (AVFrame.t * qreal))
    (w : World SwrContext AkFrac)
    : list (AVFrame.t * World SwrContext AkFrac * list (Event AkFrac)) :=
  match inputs with
  | [] => []
  | (frame, c) :: rest =>
      let r := processData frame (at_clock c w) in
      r :: processData_all rest (snd (fst r))
  end.

(** The whole trace of a run. *)
Definition trace_of {A : Type} (results : list (A * list (Event AkFrac)))
    : list (Event AkFrac) :=
  concat (map snd results).

(** The signals of a trace, and the packets its [oStream] signals carry. *)
Definition signals (t : list (Event AkFrac)) : list (Event AkFrac) :=
  filter (fun e => match e with
                   | EvOStream _ | EvFrameSent => true
                   | _ => false
                   end) t.

Definition emitted (t : list (Event AkFrac)) : list (AkPacket AkFrac) :=
  flat_map (fun e => match e with
                     | EvOStream p => [p]
                     | _ => []
                     end) t.

(** The members set at construction that describe the stream. *)
Definition same_parameters (a b : AudioStream.t SwrContext AkFrac) : Prop :=
  AudioStream.index b = AudioStream.index a /\
  AudioStream.id b = AudioStream.id a /\
  AudioStream.timeBase b = AudioStream.timeBase a /\
  AudioStream.codecContext b = AudioStream.codecContext a /\
  AudioStream.m_maxData b = AudioStream.m_maxData a /\
  AudioStream.audioDiffAvgCoef b = AudioStream.audioDiffAvgCoef a.

(** The timestamp [processData] uses for a frame (line 132). *)
Definition usedTimestamp (frame : AVFrame.t)
    (w : World SwrContext AkFrac) : Z :=
  if negb (AVFrame.pts frame =? AV_NOPTS_VALUE) then AVFrame.pts frame
  else AudioStream.m_pts (this w).

(** *** The calls [convert] makes to the resampler

    Each with the arguments of the source, as a function of the frame
    and of the world in which [convert] is called. *)

(** [wantedSamples] when the sync block is left (lines 145-176). *)
Definition wantedSamples_of (w : World SwrContext AkFrac)
    (iFrame : AVFrame.t) : Z :=
  snd (estimate (AudioStream.audioDiffAvgCoef (this w))
                (AudioStream.audioDiffCum (this w))
                (AudioStream.audioDiffAvgCount (this w))
                (clock_diff w iFrame)
                (AVFrame.nb_samples iFrame) (AVFrame.sample_rate iFrame)).

(** Lines 168-171: what [swr_set_compensation] returns and the context
    it leaves; [(0, context)] when the sync block makes no request. *)
Definition compensation_call (w : World SwrContext AkFrac)
    (iFrame : AVFrame.t) : Z * option SwrContext :=
  let wantedSamples := wantedSamples_of w iFrame in
  if wantedSamples =? AVFrame.nb_samples iFrame
  then (0, AudioStream.m_resampleContext (this w))
  else swr_set_compensation (AudioStream.m_resampleContext (this w))
         (Int.sub wantedSamples (AVFrame.nb_samples iFrame)) wantedSamples.

(** Lines 198-207: what [swr_alloc_set_opts] returns. *)
Definition configure_call (w : World SwrContext AkFrac)
    (iFrame : AVFrame.t) : option SwrContext :=
  swr_alloc_set_opts (snd (compensation_call w iFrame))
    (Int.int64 (negotiated_layout (AVFrame.channel_layout iFrame)))
    (negotiated_format (AVFrame.format iFrame))
    (AVFrame.sample_rate iFrame)
    (Int.int64 (AVFrame.channel_layout iFrame))
    (AVFrame.format iFrame)
    (AVFrame.sample_rate iFrame).

(** Lines 222-235: what [avcodec_fill_audio_frame] returns. *)
Definition fill_call (w : World SwrContext AkFrac)
    (iFrame : AVFrame.t) : Z :=
  let oFrame := target_frame iFrame (wantedSamples_of w iFrame) in
  avcodec_fill_audio_frame oFrame (AVFrame.channels oFrame)
    (AVFrame.format oFrame)
    (av_samples_get_buffer_size (AVFrame.channels oFrame)
       (AVFrame.nb_samples oFrame) (AVFrame.format oFrame) 1)
    1.

(** Lines 239-241: the error [swr_convert_frame] returns on the
    configured context [s]. *)
Definition convert_frame_call (w : World SwrContext AkFrac)
    (iFrame : AVFrame.t) (s : SwrContext) : Z :=
  fst (fst (fst (swr_convert_frame s
                   (target_frame iFrame (wantedSamples_of w iFrame))
                   iFrame))).

(** One of the calls fails: a rejected compensation request (line 171),
    a NULL context from the configuration (line 209), a frame that
    cannot be filled (line 235) or a failed conversion (line 243). *)
Definition resampler_fails (w : World SwrContext AkFrac)
    (iFrame : AVFrame.t) : bool :=
  (fst (compensation_call w iFrame) <? 0)
  || match configure_call w iFrame with
     | None => true
     | Some s =>
         (fill_call w iFrame <? 0) || (convert_frame_call w iFrame s <? 0)
     end.

End Runs.

(** The timestamps of back-to-back frames of the given sizes, the first
    at [m_pts]. *)
Fixpoint continuous_timestamps (m_pts : Z) (sizes : list Z) : list Z :=
  match sizes with
  | [] => []
  | n :: rest => m_pts :: continuous_timestamps (m_pts + n) rest
  end.

(** [int(d)] is defined in C++ when the truncated value fits in [int]. *)
Definition int_conversion_defined (d : qreal) : Prop :=
  match trunc d with
  | Some z => Int.is_int z
  | None => False
  end.

(** [signed s x]: the sign bit of [x] is [s], unless [x] is NaN. *)
Definition signed (s : bool) (x : qreal) : Prop :=
  match x with
  | S754_nan => True
  | S754_zero s' | S754_infinity s' | S754_finite s' _ _ => s' = s
  end.

(** ** Frame ingestion: [AudioStream::processPacket]

    The decoder is external: [avcodec_send_packet] and
    [avcodec_receive_frame] return their result code and the decoder
    after the call; [avcodec_receive_frame] also returns the frame it has
    filled.  [dataEnqueue] belongs to the base class: the model returns
    the sequence of its arguments, [None] for the NULL frame. *)

Class Decoder (Codec AVPacket : Type) : Type := {
  avcodec_send_packet : Codec -> AVPacket -> Z * Codec;
  avcodec_receive_frame : Codec -> Z * Codec * AVFrame.t
}.

Section Ingestion.
Context {Codec AVPacket : Type} {D : Decoder Codec AVPacket}.

(** The [forever] loop of lines 117-127, at most [fuel] iterations:
    [None] when the decoder has not yet failed after [fuel] frames. *)
Fixpoint receive_frames (fuel : nat) (c : Codec)
    : option (Codec * list (option AVFrame.t)) :=
  match fuel with
  | O => None
  | S fuel' =>
      let '(r, c1, iFrame) := avcodec_receive_frame c in
      if r <? 0 then Some (c1, [])
      else
        match receive_frames fuel' c1 with
        | Some (c2, enqueued) => Some (c2, Some iFrame :: enqueued)
        | None => None
        end
  end.

(** [AudioStream::processPacket]; [packet] is [None] for the NULL
    packet. *)
Definition processPacket (fuel : nat) (isValid : bool)
    (packet : option AVPacket) (c : Codec)
    : option (Codec * list (option AVFrame.t)) :=
  if negb isValid then Some (c, [])
  else
    match packet with
    | None => Some (c, [None])
    | Some p =>
        let '(r, c1) := avcodec_send_packet c p in
        if r <? 0 then Some (c1, [])
        else receive_frames fuel c1
    end.

(** The decoder hands out [frames], in this order, and then fails,
    leaving the decoder [c']. *)
Inductive yields : Codec -> list AVFrame.t -> Codec -> Prop :=
| yields_end (c c1 : Codec) (r : Z) (iFrame : AVFrame.t) :
    avcodec_receive_frame c = (r, c1, iFrame) -> r < 0 ->
    yields c [] c1
| yields_frame (c c1 c' : Codec) (r : Z) (iFrame : AVFrame.t)
    (frames : list AVFrame.t) :
    avcodec_receive_frame c = (r, c1, iFrame) -> 0 <= r ->
    yields c1 frames c' ->
    yields c (iFrame :: frames) c'.

End Ingestion.

(** ** More test doubles *)

Module Fixtures.

(** A resampler that rejects every compensation request. *)
Definition swr_set_compensation_rejecting (s : option unit)
    (sample_delta distance : Z) : Z * option unit := (-22, s).

Definition libav_rejecting : Libav unit (Z * Z) :=
  Build_Libav unit (Z * Z) Mock.AkFrac_value Mock.exp Mock.log
    Mock.av_get_packed_sample_fmt Mock.av_get_bytes_per_sample
    Mock.av_get_channel_layout_nb_channels Mock.av_samples_get_buffer_size
    Mock.avcodec_fill_audio_frame swr_set_compensation_rejecting
    Mock.swr_alloc_set_opts Mock.swr_convert_frame.

(** A decoder that holds the decoded frames in a queue: a packet is the
    list of the frames it decodes to, an empty packet is refused, and
    receiving from the empty queue fails with EAGAIN. *)
Definition queue_send (c : list AVFrame.t) (p : list AVFrame.t)
    : Z * list AVFrame.t :=
  match p with
  | [] => (-22, c)
  | _ => (0, c ++ p)
  end.

Definition queue_receive (c : list AVFrame.t)
    : Z * list AVFrame.t * AVFrame.t :=
  match c with
  | [] => (-11, [], Mock.frame 0)
  | f :: rest => (0, rest, f)
  end.

Definition queue_decoder : Decoder (list AVFrame.t) (list AVFrame.t) :=
  Build_Decoder _ _ queue_send queue_receive.

(** A frame of [n] samples without a timestamp. *)
Definition unstamped (n : Z) : AVFrame.t :=
  {| AVFrame.pts := AV_NOPTS_VALUE;
     AVFrame.nb_samples := n;
     AVFrame.sample_rate := 48000;
     AVFrame.channel_layout := AV_CH_LAYOUT_STEREO;
     AVFrame.format := AV_SAMPLE_FMT_S16;
     AVFrame.channels := 2;
     AVFrame.data := [] |}.

(** A frame of [n] samples at [rate] Hz stamped 1. *)
Definition sized (n rate : Z) : AVFrame.t :=
  {| AVFrame.pts := 1;
     AVFrame.nb_samples := n;
     AVFrame.sample_rate := rate;
     AVFrame.channel_layout := AV_CH_LAYOUT_STEREO;
     AVFrame.format := AV_SAMPLE_FMT_S16;
     AVFrame.channels := 2;
     AVFrame.data := [] |}.

End Fixtures.

(** * Properties *)

(** ** Comparisons of binary64 values *)

Section Comparisons.

Lemma SFcompare_antisym (a b : spec_float) :
  SFcompare b a = option_map CompOpp (SFcompare a b).
Proof.
  destruct a as [sa | sa | | sa ma ea], b as [sb | sb | | sb mb eb];
    try destruct sa; try destruct sb; try reflexivity.
  all: cbn [SFcompare option_map]; rewrite (Z.compare_antisym eb ea);
    destruct (eb ?= ea); cbn [CompOpp]; try reflexivity;
    generalize (Pos.compare_cont_antisym ma mb Eq); cbn [CompOpp];
    intros <-; destruct (Pos.compare_cont Eq ma mb); reflexivity.
Qed.

Lemma SFcompare_nan_r (a : spec_float) : SFcompare a S754_nan = None.
Proof. destruct a as [ | | | ]; reflexivity. Qed.

Lemma SFcompare_defined (a b : spec_float) :
  qIsNaN a = false -> qIsNaN b = false -> exists c, SFcompare a b = Some c.
Proof.
  destruct a as [sa | sa | | sa ma ea], b as [sb | sb | | sb mb eb];
    cbn [qIsNaN]; intros Ha Hb; try discriminate; cbn [SFcompare];
    eexists; reflexivity.
Qed.

(** [a < b] and [a >= b] exclude each other, and one of them holds
    unless an operand is NaN. *)
Lemma lt_ge_false (a b : qreal) : lt a b = true -> ge a b = false.
Proof.
  unfold lt, ge, SFltb, SFleb. rewrite (SFcompare_antisym a b).
  destruct (SFcompare a b) as [[ | | ] | ]; cbn; congruence.
Qed.

Lemma ge_lt_false (a b : qreal) : ge a b = true -> lt a b = false.
Proof.
  unfold lt, ge, SFltb, SFleb. rewrite (SFcompare_antisym a b).
  destruct (SFcompare a b) as [[ | | ] | ]; cbn; congruence.
Qed.

Lemma lt_false_ge (a b : qreal) :
  qIsNaN a = false -> qIsNaN b = false -> lt a b = false -> ge a b = true.
Proof.
  intros Ha Hb. destruct (SFcompare_defined a b Ha Hb) as [c Hc].
  unfold lt, ge, SFltb, SFleb. rewrite (SFcompare_antisym a b), Hc.
  destruct c; cbn; congruence.
Qed.

Lemma qAbs_nan (d : qreal) : qIsNaN d = true -> qAbs d = S754_nan.
Proof. destruct d; cbn [qIsNaN]; intros H; try discriminate; reflexivity. Qed.

Lemma qIsNaN_qAbs (d : qreal) : qIsNaN (qAbs d) = qIsNaN d.
Proof.
  unfold qAbs. destruct (ge d (of_Z 0)); [reflexivity | ].
  destruct d; reflexivity.
Qed.

Lemma ge_nan_l (b : qreal) : ge S754_nan b = false.
Proof. unfold ge, SFleb. rewrite SFcompare_nan_r. reflexivity. Qed.

(** The two tests of [convert] on [diff]. *)
Lemma in_sync_nan (d : qreal) : qIsNaN d = true -> in_sync d = false.
Proof. unfold in_sync. intros ->. reflexivity. Qed.

Lemma no_sync_nan (d : qreal) : qIsNaN d = true -> no_sync d = false.
Proof.
  intros H. unfold no_sync. rewrite (qAbs_nan d H). apply ge_nan_l.
Qed.

Lemma in_sync_no_sync (d : qreal) :
  in_sync d = true -> no_sync d = false.
Proof.
  unfold in_sync, no_sync. intros H.
  apply andb_true_iff in H. destruct H as [_ H]. now apply lt_ge_false.
Qed.

Lemma no_sync_in_sync (d : qreal) :
  no_sync d = true -> in_sync d = false.
Proof.
  unfold in_sync, no_sync. intros H.
  rewrite (ge_lt_false _ _ H). apply andb_false_r.
Qed.

Lemma not_in_sync_cases (d : qreal) :
  in_sync d = false -> qIsNaN d = true \/ no_sync d = true.
Proof.
  unfold in_sync, no_sync. intros H.
  destruct (qIsNaN d) eqn:Hn; [now left | right].
  cbn [negb andb] in H. apply lt_false_ge; [ | reflexivity | exact H].
  now rewrite qIsNaN_qAbs.
Qed.

End Comparisons.

(** ** What [convert] does to the stream *)

Section Properties.
Context {SwrContext AkFrac : Type} {L : Libav SwrContext AkFrac}.

Local Notation "'Stream'" := (AudioStream.t SwrContext AkFrac).
Local Notation "'W'" := (World SwrContext AkFrac).
Local Notation "'Packet'" := (AkPacket AkFrac).
Local Notation "'Ev'" := (Event AkFrac).

Ltac run_body :=
  cbv beta iota zeta delta
    [synchronize resample Body.bind Body.gets Body.modify Body.emit
     Body.ret Body.return_ Body.call on_this setClock at_clock];
  cbn [this clock fst snd app
       AudioStream.index AudioStream.id AudioStream.timeBase
       AudioStream.codecContext AudioStream.m_maxData
       AudioStream.m_clockDiff AudioStream.m_pts
       AudioStream.m_resampleContext AudioStream.audioDiffCum
       AudioStream.audioDiffAvgCoef AudioStream.audioDiffAvgCount
       AudioStream.set_m_clockDiff AudioStream.set_m_pts
       AudioStream.set_m_resampleContext AudioStream.set_audioDiffCum
       AudioStream.set_audioDiffAvgCount].

Lemma synchronize_estimate (iFrame : AVFrame.t) (w : W) :
  let d := clock_diff w iFrame in
  let n := AVFrame.nb_samples iFrame in
  let p := pts_seconds (this w) iFrame in
  forall cum cnt ws o w' t,
    estimate (AudioStream.audioDiffAvgCoef (this w))
             (AudioStream.audioDiffCum (this w))
             (AudioStream.audioDiffAvgCount (this w))
             d n (AVFrame.sample_rate iFrame) = (cum, cnt, ws) ->
    synchronize iFrame w = (o, w', t) ->
    AudioStream.audioDiffCum (this w') = cum /\
    AudioStream.audioDiffAvgCount (this w') = cnt /\
    same_identity (this w) (this w') /\
    ((o = Next ws /\
      AudioStream.m_clockDiff (this w') = d /\
      clock w' = (if no_sync d then p else clock w) /\
      t = (if ws =? n then [] else [EvSetCompensation (Int.sub ws n) ws])
          ++ (if no_sync d then [EvSetClock p] else []))
     \/
     (o = Return AkPacket_empty /\
      ws <> n /\ in_sync d = true /\
      AUDIO_DIFF_AVG_NB <= AudioStream.audioDiffAvgCount (this w) /\
      fst (swr_set_compensation (AudioStream.m_resampleContext (this w))
                                (Int.sub ws n) ws) < 0 /\
      AudioStream.m_clockDiff (this w') = AudioStream.m_clockDiff (this w) /\
      clock w' = clock w /\
      t = [EvSetCompensation (Int.sub ws n) ws])).
Proof.
  intros d n p cum cnt ws o w' t.
  unfold estimate, clamped_target, same_identity. run_body.
  change (sub (mul (of_Z (AVFrame.pts iFrame))
                   (AkFrac_value (AudioStream.timeBase (this w))))
              (clock w)) with d.
  change (mul (of_Z (AVFrame.pts iFrame))
              (AkFrac_value (AudioStream.timeBase (this w)))) with p.
  change (AVFrame.nb_samples iFrame) with n.
  change (negb (qIsNaN d) && lt (qAbs d) AV_NOSYNC_THRESHOLD) with (in_sync d).
  change (ge (qAbs d) AV_NOSYNC_THRESHOLD) with (no_sync d).
  destruct (in_sync d) eqn:Hsync; run_body.
  - rewrite (in_sync_no_sync d Hsync).
    destruct (AudioStream.audioDiffAvgCount (this w) <? AUDIO_DIFF_AVG_NB)
      eqn:Hcnt; run_body.
    + intros [= <- <- <-] [= <- <- <-]. cbn.
      rewrite Z.eqb_refl. intuition.
    + apply Z.ltb_ge in Hcnt.
      match goal with |- context [if ge ?a ?b then _ else _] =>
        destruct (ge a b) eqn:Hthr end; run_body.
      * match goal with |- (_, _, ?q) = _ -> _ => set (target := q) end.
        destruct (target =? n) eqn:Hw; cbn [negb]; run_body.
        -- apply Z.eqb_eq in Hw.
           intros [= <- <- <-] [= <- <- <-]. cbn.
           rewrite Hw, Z.eqb_refl. intuition.
        -- destruct (swr_set_compensation (AudioStream.m_resampleContext (this w))
                       (Int.sub target n) target) as [r ctx'] eqn:Hswr.
           run_body. apply Z.eqb_neq in Hw.
           destruct (r <? 0) eqn:Hr; run_body;
             intros [= <- <- <-] [= <- <- <-]; cbn;
             (destruct (target =? n) eqn:Hw'; [apply Z.eqb_eq in Hw'; contradiction | ]).
           ++ apply Z.ltb_lt in Hr. repeat split; auto.
              right. rewrite Hswr. repeat split; auto.
           ++ repeat split; auto.
      * intros [= <- <- <-] [= <- <- <-]. cbn.
        rewrite Z.eqb_refl. intuition.
  - intros [= <- <- <-].
    destruct (no_sync d) eqn:Hno; run_body; intros [= <- <- <-]; cbn;
      rewrite Z.eqb_refl; intuition.
Qed.

Lemma resample_spec (iFrame : AVFrame.t) (ws : Z) (w : W) :
  forall o w' t,
    resample iFrame ws w = (o, w', t) ->
    AudioStream.audioDiffCum (this w') = AudioStream.audioDiffCum (this w) /\
    AudioStream.audioDiffAvgCount (this w') =
      AudioStream.audioDiffAvgCount (this w) /\
    AudioStream.m_clockDiff (this w') = AudioStream.m_clockDiff (this w) /\
    same_identity (this w) (this w') /\
    clock w' = clock w /\
    ((o = Return AkPacket_empty /\
      AudioStream.m_resampleContext (this w') = None /\
      t = [EvAllocSetOpts (Int.int64 (negotiated_layout (AVFrame.channel_layout iFrame)))
             (negotiated_format (AVFrame.format iFrame))
             (AVFrame.sample_rate iFrame)
             (Int.int64 (AVFrame.channel_layout iFrame))
             (AVFrame.format iFrame) (AVFrame.sample_rate iFrame)])
     \/
     (o = Return AkPacket_empty /\
      AudioStream.m_resampleContext (this w') <> None /\
      t = [EvAllocSetOpts (Int.int64 (negotiated_layout (AVFrame.channel_layout iFrame)))
             (negotiated_format (AVFrame.format iFrame))
             (AVFrame.sample_rate iFrame)
             (Int.int64 (AVFrame.channel_layout iFrame))
             (AVFrame.format iFrame) (AVFrame.sample_rate iFrame)])
     \/
     (exists error,
      error < 0 /\
      o = Return AkPacket_empty /\
      AudioStream.m_resampleContext (this w') <> None /\
      t = [EvAllocSetOpts (Int.int64 (negotiated_layout (AVFrame.channel_layout iFrame)))
             (negotiated_format (AVFrame.format iFrame))
             (AVFrame.sample_rate iFrame)
             (Int.int64 (AVFrame.channel_layout iFrame))
             (AVFrame.format iFrame) (AVFrame.sample_rate iFrame);
           EvConvertFrame (target_frame iFrame ws) iFrame;
           EvDebug error])
     \/
     (exists samples oBuffer,
      o = Next (AkPacket_audio
                  {| AkAudioPacket.caps := packet_caps iFrame samples;
                     AkAudioPacket.buffer := oBuffer;
                     AkAudioPacket.pts := AVFrame.pts iFrame;
                     AkAudioPacket.timeBase := AudioStream.timeBase (this w);
                     AkAudioPacket.index := Int.int (AudioStream.index (this w));
                     AkAudioPacket.id := AudioStream.id (this w) |}) /\
      AudioStream.m_resampleContext (this w') <> None /\
      t = [EvAllocSetOpts (Int.int64 (negotiated_layout (AVFrame.channel_layout iFrame)))
             (negotiated_format (AVFrame.format iFrame))
             (AVFrame.sample_rate iFrame)
             (Int.int64 (AVFrame.channel_layout iFrame))
             (AVFrame.format iFrame) (AVFrame.sample_rate iFrame);
           EvConvertFrame (target_frame iFrame ws) iFrame])).
Proof.
  intros o w' t. unfold same_identity. run_body.
  fold (negotiated_layout (AVFrame.channel_layout iFrame)).
  fold (negotiated_format (AVFrame.format iFrame)).
  fold (target_frame iFrame ws).
  match goal with |- context [match ?c with Some _ => _ | None => _ end] =>
    destruct c as [s | ] eqn:Hctx end; run_body.
  - match goal with |- context [if ?c <? 0 then _ else _] =>
      destruct (c <? 0) eqn:Hfill end; run_body.
    + intros [= <- <- <-]. cbn. repeat split; auto.
      right. left. repeat split; auto. discriminate.
    + destruct (swr_convert_frame s (target_frame iFrame ws) iFrame)
        as [[[error s'] oFrame'] oBuffer] eqn:Hconv.
      run_body.
      destruct (error <? 0) eqn:Herr; run_body; intros [= <- <- <-]; cbn.
      * apply Z.ltb_lt in Herr. repeat split; auto.
        right. right. left. exists error. repeat split; auto. discriminate.
      * repeat split; auto.
        right. right. right. exists (AVFrame.nb_samples oFrame'), oBuffer.
        repeat split; auto. discriminate.
  - intros [= <- <- <-]. cbn. repeat split; auto.
Qed.

(** [convert] is [synchronize], then [resample] unless [synchronize]
    has returned. *)
Lemma convert_unfold (iFrame : AVFrame.t) (w : W) :
  forall pkt w' t,
    convert iFrame w = (pkt, w', t) ->
    (synchronize iFrame w = (Return pkt, w', t))
    \/
    (exists ws w1 t1 o2 t2,
       synchronize iFrame w = (Next ws, w1, t1) /\
       resample iFrame ws w1 = (o2, w', t2) /\
       t = t1 ++ t2 /\
       (o2 = Next pkt \/ o2 = Return pkt)).
Proof.
  intros pkt w' t. unfold convert, Body.call, Body.bind.
  destruct (synchronize iFrame w) as [[[ws | r] w1] t1].
  - destruct (resample iFrame ws w1) as [[o2 w2] t2] eqn:Hres.
    destruct o2 as [pkt2 | pkt2]; intros [= <- <- <-];
      right; exists ws, w1, t1; eauto 10.
  - intros [= <- <- <-]. now left.
Qed.

Lemma same_identity_trans (a b c : Stream) :
  same_identity a b -> same_identity b c -> same_identity a c.
Proof.
  unfold same_identity. intros (?&?&?&?&?&?&?) (?&?&?&?&?&?&?).
  repeat split; congruence.
Qed.

Lemma compensations_app (t1 t2 : list Ev) :
  compensations (t1 ++ t2) = compensations t1 ++ compensations t2.
Proof. apply flat_map_app. Qed.

Lemma clock_writes_app (t1 t2 : list Ev) :
  clock_writes (t1 ++ t2) = clock_writes t1 ++ clock_writes t2.
Proof. apply flat_map_app. Qed.

Lemma configurations_app (t1 t2 : list Ev) :
  configurations (t1 ++ t2) = configurations t1 ++ configurations t2.
Proof. apply flat_map_app. Qed.

(** The whole of [convert] in terms of the estimator: the sync members
    and the trace, which is the compensation request alone when the
    resampler rejects it, and otherwise the request (if any), the clock
    write (if any), the configuration and the conversion. *)
Lemma convert_spec (iFrame : AVFrame.t) (w : W) :
  let d := clock_diff w iFrame in
  let n := AVFrame.nb_samples iFrame in
  let p := pts_seconds (this w) iFrame in
  forall cum cnt ws pkt w' t,
    estimate (AudioStream.audioDiffAvgCoef (this w))
             (AudioStream.audioDiffCum (this w))
             (AudioStream.audioDiffAvgCount (this w))
             d n (AVFrame.sample_rate iFrame) = (cum, cnt, ws) ->
    convert iFrame w = (pkt, w', t) ->
    AudioStream.audioDiffCum (this w') = cum /\
    AudioStream.audioDiffAvgCount (this w') = cnt /\
    same_identity (this w) (this w') /\
    ((pkt = AkPacket_empty /\ ws <> n /\ in_sync d = true /\
      fst (swr_set_compensation (AudioStream.m_resampleContext (this w))
                                (Int.sub ws n) ws) < 0 /\
      AudioStream.m_clockDiff (this w') = AudioStream.m_clockDiff (this w) /\
      clock w' = clock w /\
      t = [EvSetCompensation (Int.sub ws n) ws])
     \/
     (AudioStream.m_clockDiff (this w') = d /\
      clock w' = (if no_sync d then p else clock w) /\
      exists rest,
        t = (if ws =? n then [] else [EvSetCompensation (Int.sub ws n) ws])
            ++ (if no_sync d then [EvSetClock p] else [])
            ++ configure_event iFrame :: rest /\
        outcome (this w) iFrame ws pkt rest /\
        (AudioStream.m_resampleContext (this w') = None ->
         pkt = AkPacket_empty))).
Proof.
  intros d n p cum cnt ws pkt w' t Hest Hconv.
  destruct (convert_unfold iFrame w pkt w' t Hconv)
    as [Hs | (ws' & w1 & t1 & o2 & t2 & Hs & Hr & -> & Ho2)].
  - destruct (synchronize_estimate iFrame w cum cnt ws _ _ _ Hest Hs)
      as (Hc & Hn & Hid & [(Ho & _) | (Ho & Hne & Hin & _ & Hrej & Hcd & Hck & Ht)]);
      [discriminate | ].
    injection Ho as ->.
    split; [exact Hc | split; [exact Hn | split; [exact Hid | ]]].
    left. repeat split; auto.
  - destruct (synchronize_estimate iFrame w cum cnt ws _ _ _ Hest Hs)
      as (Hc & Hn & Hid & [(Ho & Hcd & Hck & Ht) | (Ho & _)]);
      [ | discriminate].
    injection Ho as ->.
    destruct (resample_spec iFrame ws w1 _ _ _ Hr)
      as (Hc2 & Hn2 & Hcd2 & Hid2 & Hck2 & Hout).
    assert (Hid' := same_identity_trans _ _ _ Hid Hid2).
    destruct Hid as (Hix & Hidd & Htb & _).
    split; [congruence | split; [congruence | split; [exact Hid' | ]]].
    right.
    split; [rewrite Hcd2; exact Hcd | split; [rewrite Hck2; exact Hck | ]].
    rewrite Ht, <- app_assoc.
    destruct Hout as [(-> & _ & ->) | [(-> & _ & ->) | [(e & He & -> & _ & ->)
                     | (sm & ob & -> & Hsome & ->)]]];
      (destruct Ho2 as [Ho2 | Ho2]; [try discriminate | try discriminate]);
      injection Ho2 as <-; eexists; (split; [reflexivity | split; [ | auto]]).
    + constructor.
    + constructor.
    + now constructor.
    + rewrite Htb, Hix, Hidd. apply outcome_produced.
    + intros Hnone. now elim Hsome.
Qed.

(** ** The estimator, case by case *)

Lemma int_small (z : Z) : Int.is_int z -> Int.int z = z.
Proof.
  unfold Int.is_int, Int.INT_MIN, Int.INT_MAX, Int.int, Int.wrap.
  intros H. rewrite Z.mod_small; lia.
Qed.

Lemma estimate_measuring (coef cum : qreal) (cnt : Z) (d : qreal) (n r : Z) :
  in_sync d = true -> cnt < AUDIO_DIFF_AVG_NB ->
  estimate coef cum cnt d n r = (add d (mul coef cum), Int.add cnt 1, n).
Proof.
  intros Hs Hc. unfold estimate. rewrite Hs.
  apply Z.ltb_lt in Hc. rewrite Hc. reflexivity.
Qed.

Lemma estimate_reset (coef cum : qreal) (cnt : Z) (d : qreal) (n r : Z) :
  in_sync d = false -> estimate coef cum cnt d n r = (zero, 0, n).
Proof. intros Hs. unfold estimate. rewrite Hs. reflexivity. Qed.

Lemma estimate_steady (coef cum : qreal) (cnt : Z) (d : qreal) (n r : Z) :
  in_sync d = true -> AUDIO_DIFF_AVG_NB <= cnt ->
  exists ws,
    estimate coef cum cnt d n r = (add d (mul coef cum), cnt, ws) /\
    (ws = n \/ ws = clamped_target d n r).
Proof.
  intros Hs Hc. unfold estimate. rewrite Hs.
  apply Z.ltb_ge in Hc. rewrite Hc.
  match goal with |- context [if ?c then _ else _] => destruct c end; eauto.
Qed.

Lemma outcome_silent (a : Stream) (iFrame : AVFrame.t) (ws : Z)
    (pkt : Packet) (rest : list Ev) :
  outcome a iFrame ws pkt rest ->
  compensations rest = [] /\ clock_writes rest = [] /\
  configurations rest = [] /\
  incl (conversions rest) [(target_frame iFrame ws, iFrame)].
Proof.
  intros [ | error He | samples oBuffer]; cbn; repeat split;
    auto using incl_nil_l, incl_refl.
Qed.

(** The compensation requests and the clock writes of a whole call. *)
Lemma convert_observables (iFrame : AVFrame.t) (w : W) :
  let d := clock_diff w iFrame in
  let n := AVFrame.nb_samples iFrame in
  let p := pts_seconds (this w) iFrame in
  forall cum cnt ws pkt w' t,
    estimate (AudioStream.audioDiffAvgCoef (this w))
             (AudioStream.audioDiffCum (this w))
             (AudioStream.audioDiffAvgCount (this w))
             d n (AVFrame.sample_rate iFrame) = (cum, cnt, ws) ->
    convert iFrame w = (pkt, w', t) ->
    compensations t = (if ws =? n then [] else [(Int.sub ws n, ws)]) /\
    incl (conversions t) [(target_frame iFrame ws, iFrame)] /\
    (ws = n ->
     AudioStream.m_clockDiff (this w') = d /\
     clock_writes t = (if no_sync d then [p] else []) /\
     clock w' = (if no_sync d then p else clock w) /\
     configurations t = [configuration iFrame]).
Proof.
  intros d n p cum cnt ws pkt w' t Hest Hconv.
  destruct (convert_spec iFrame w cum cnt ws pkt w' t Hest Hconv)
    as (_ & _ & _ & [(_ & Hne & _ & _ & _ & _ & ->)
                    | (Hcd & Hck & rest & -> & Hout & _)]).
  - fold n in Hne. apply Z.eqb_neq in Hne. fold n. rewrite Hne. cbn.
    split; [reflexivity | split; [apply incl_nil_l | ]].
    intros ->. now rewrite Z.eqb_refl in Hne.
  - destruct (outcome_silent _ _ _ _ _ Hout) as (Hc & Hw & Hf & Hv).
    fold n. fold d. fold p.
    rewrite !compensations_app, !clock_writes_app, !configurations_app.
    unfold conversions in *. rewrite !flat_map_app.
    change (configure_event iFrame :: rest)
      with ([configure_event iFrame] ++ rest).
    rewrite !compensations_app, !clock_writes_app, !configurations_app,
      !flat_map_app, Hc, Hw, Hf.
    split; [ | split].
    + destruct (ws =? n), (no_sync d); cbn; reflexivity.
    + destruct (ws =? n), (no_sync d); cbn; exact Hv.
    + intros ->. rewrite Z.eqb_refl.
      subst d p.
      destruct (no_sync (clock_diff w iFrame)); cbn; rewrite ?Hf;
        repeat split; assumption || reflexivity.
Qed.

(** ** The sync estimator (claims C3, C4, C5, C9) *)

(** C4.  For every frame whose [diff] is not NaN and satisfies
    [|diff| < 10.0], while [audioDiffAvgCount < 20]: [convert] requests
    no compensation from the resampler, [wantedSamples] stays the frame's
    [nb_samples] (it is what the sync block hands on and the only sample
    count the resampler is asked to produce), and [audioDiffAvgCount]
    grows by exactly one. *)
Theorem convert_measuring_no_compensation (iFrame : AVFrame.t) (w : W) :
  let d := clock_diff w iFrame in
  qIsNaN d = false ->
  lt (qAbs d) AV_NOSYNC_THRESHOLD = true ->
  Int.INT_MIN <= AudioStream.audioDiffAvgCount (this w) < AUDIO_DIFF_AVG_NB ->
  let '(pkt, w', t) := convert iFrame w in
  compensations t = [] /\
  fst (fst (synchronize iFrame w)) = Next (AVFrame.nb_samples iFrame) /\
  incl (conversions t)
       [(target_frame iFrame (AVFrame.nb_samples iFrame), iFrame)] /\
  AudioStream.audioDiffAvgCount (this w') =
    AudioStream.audioDiffAvgCount (this w) + 1.
Proof.
  intros d Hnan Hlt [Hlo Hhi].
  assert (Hs : in_sync d = true) by (unfold in_sync; now rewrite Hnan, Hlt).
  pose proof (estimate_measuring
                (AudioStream.audioDiffAvgCoef (this w))
                (AudioStream.audioDiffCum (this w))
                (AudioStream.audioDiffAvgCount (this w))
                d (AVFrame.nb_samples iFrame) (AVFrame.sample_rate iFrame)
                Hs Hhi) as Hest.
  destruct (convert iFrame w) as [[pkt w'] t] eqn:Hconv.
  destruct (convert_spec iFrame w _ _ _ _ _ _ Hest Hconv) as (_ & Hcnt & _).
  destruct (convert_observables iFrame w _ _ _ _ _ _ Hest Hconv)
    as (Hcomp & Hincl & _).
  rewrite Z.eqb_refl in Hcomp.
  destruct (synchronize iFrame w) as [[o w1] t1] eqn:Hsyn.
  destruct (synchronize_estimate iFrame w _ _ _ _ _ _ Hest Hsyn)
    as (_ & _ & _ & [(-> & _) | (_ & Hne & _)]); [ | now elim Hne].
  repeat split; auto.
  rewrite Hcnt. apply int_small.
  unfold Int.is_int, Int.INT_MIN, Int.INT_MAX, AUDIO_DIFF_AVG_NB in *. lia.
Qed.

(** C3.  For every frame whose [diff] is NaN, [convert] resets
    [audioDiffAvgCount] and [audioDiffCum] to 0, does not write the
    Global Clock, and records the NaN in [m_clockDiff]; for a [diff] that
    is not NaN with [|diff| >= 10.0] the clock is written, with the
    frame's [pts] in seconds. *)
Theorem convert_nan_diff (iFrame : AVFrame.t) (w : W) :
  let d := clock_diff w iFrame in
  let '(pkt, w', t) := convert iFrame w in
  (qIsNaN d = true ->
   AudioStream.audioDiffAvgCount (this w') = 0 /\
   AudioStream.audioDiffCum (this w') = zero /\
   clock_writes t = [] /\
   clock w' = clock w /\
   AudioStream.m_clockDiff (this w') = d)
  /\
  (qIsNaN d = false -> ge (qAbs d) AV_NOSYNC_THRESHOLD = true ->
   clock_writes t = [pts_seconds (this w) iFrame] /\
   clock w' = pts_seconds (this w) iFrame).
Proof.
  intros d. destruct (convert iFrame w) as [[pkt w'] t] eqn:Hconv. split.
  - intros Hnan.
    pose proof (estimate_reset
                  (AudioStream.audioDiffAvgCoef (this w))
                  (AudioStream.audioDiffCum (this w))
                  (AudioStream.audioDiffAvgCount (this w))
                  d (AVFrame.nb_samples iFrame) (AVFrame.sample_rate iFrame)
                  (in_sync_nan d Hnan)) as Hest.
    destruct (convert_spec iFrame w _ _ _ _ _ _ Hest Hconv) as (Hcum & Hcnt & _).
    destruct (convert_observables iFrame w _ _ _ _ _ _ Hest Hconv)
      as (_ & _ & Hobs).
    destruct (Hobs eq_refl) as (Hcd & Hcw & Hck & _).
    fold d in Hcw, Hck. rewrite (no_sync_nan d Hnan) in Hcw, Hck.
    repeat split; assumption.
  - intros Hnan Hge.
    pose proof (estimate_reset
                  (AudioStream.audioDiffAvgCoef (this w))
                  (AudioStream.audioDiffCum (this w))
                  (AudioStream.audioDiffAvgCount (this w))
                  d (AVFrame.nb_samples iFrame) (AVFrame.sample_rate iFrame)
                  (no_sync_in_sync d Hge)) as Hest.
    destruct (convert_observables iFrame w _ _ _ _ _ _ Hest Hconv)
      as (_ & _ & Hobs).
    destruct (Hobs eq_refl) as (_ & Hcw & Hck & _).
    fold d in Hcw, Hck. change (no_sync d = true) in Hge.
    rewrite Hge in Hcw, Hck. split; assumption.
Qed.

(** C5.  For every frame whose [diff] satisfies [|diff| >= 10.0] (which
    no NaN does), [convert] resets the sync history ([audioDiffCum = 0],
    [audioDiffAvgCount = 0]) and sets the Global Clock to the frame's
    [pts] in seconds, once. *)
Theorem convert_big_diff_resets_and_sets_clock (iFrame : AVFrame.t) (w : W) :
  let d := clock_diff w iFrame in
  ge (qAbs d) AV_NOSYNC_THRESHOLD = true ->
  let '(pkt, w', t) := convert iFrame w in
  qIsNaN d = false /\
  AudioStream.audioDiffCum (this w') = zero /\
  AudioStream.audioDiffAvgCount (this w') = 0 /\
  clock_writes t = [pts_seconds (this w) iFrame] /\
  clock w' = pts_seconds (this w) iFrame.
Proof.
  intros d Hge. change (no_sync d = true) in Hge.
  destruct (convert iFrame w) as [[pkt w'] t] eqn:Hconv.
  pose proof (estimate_reset
                (AudioStream.audioDiffAvgCoef (this w))
                (AudioStream.audioDiffCum (this w))
                (AudioStream.audioDiffAvgCount (this w))
                d (AVFrame.nb_samples iFrame) (AVFrame.sample_rate iFrame)
                (no_sync_in_sync d Hge)) as Hest.
  destruct (convert_spec iFrame w _ _ _ _ _ _ Hest Hconv) as (Hcum & Hcnt & _).
  destruct (convert_observables iFrame w _ _ _ _ _ _ Hest Hconv)
    as (_ & _ & Hobs).
  destruct (Hobs eq_refl) as (_ & Hcw & Hck & _).
  fold d in Hcw, Hck. rewrite Hge in Hcw, Hck.
  repeat split; try assumption.
  destruct (qIsNaN d) eqn:Hnan; [ | reflexivity].
  now rewrite (no_sync_nan d Hnan) in Hge.
Qed.

(** One call of [convert] moves [audioDiffAvgCount] in one of three ways. *)
Lemma count_step (iFrame : AVFrame.t) (w : W) :
  let d := clock_diff w iFrame in
  let c := AudioStream.audioDiffAvgCount (this w) in
  forall pkt w' t,
    convert iFrame w = (pkt, w', t) ->
    (in_sync d = true /\ c < AUDIO_DIFF_AVG_NB /\
     AudioStream.audioDiffAvgCount (this w') = Int.add c 1)
    \/
    (in_sync d = true /\ AUDIO_DIFF_AVG_NB <= c /\
     AudioStream.audioDiffAvgCount (this w') = c)
    \/
    ((qIsNaN d = true \/ no_sync d = true) /\
     AudioStream.audioDiffAvgCount (this w') = 0 /\
     AudioStream.audioDiffCum (this w') = zero).
Proof.
  intros d c pkt w' t Hconv.
  destruct (in_sync d) eqn:Hs.
  - destruct (Z.ltb_spec c AUDIO_DIFF_AVG_NB) as [Hc | Hc].
    + left. split; [reflexivity | split; [exact Hc | ]].
      pose proof (estimate_measuring
                    (AudioStream.audioDiffAvgCoef (this w))
                    (AudioStream.audioDiffCum (this w)) c
                    d (AVFrame.nb_samples iFrame) (AVFrame.sample_rate iFrame)
                    Hs Hc) as Hest.
      now destruct (convert_spec iFrame w _ _ _ _ _ _ Hest Hconv) as (_ & Hcnt & _).
    + right. left. split; [reflexivity | split; [exact Hc | ]].
      destruct (estimate_steady
                  (AudioStream.audioDiffAvgCoef (this w))
                  (AudioStream.audioDiffCum (this w)) c
                  d (AVFrame.nb_samples iFrame) (AVFrame.sample_rate iFrame)
                  Hs Hc) as (ws & Hest & _).
      now destruct (convert_spec iFrame w _ _ _ _ _ _ Hest Hconv) as (_ & Hcnt & _).
  - right. right. split; [now apply not_in_sync_cases | ].
    pose proof (estimate_reset
                  (AudioStream.audioDiffAvgCoef (this w))
                  (AudioStream.audioDiffCum (this w)) c
                  d (AVFrame.nb_samples iFrame) (AVFrame.sample_rate iFrame)
                  Hs) as Hest.
    destruct (convert_spec iFrame w _ _ _ _ _ _ Hest Hconv) as (Hcum & Hcnt & _).
    now split.
Qed.

(** C9.  [audioDiffAvgCount] stays in [0, 20] across a call of
    [convert]: the call adds exactly one to it (only when it is below 20
    and [diff] is a number with [|diff| < 10.0]), leaves it unchanged
    (once it has reached 20), or sets it to 0 together with
    [audioDiffCum] (when [diff] is NaN or [|diff| >= 10.0]). *)
Theorem convert_count_invariant (iFrame : AVFrame.t) (w : W) :
  let d := clock_diff w iFrame in
  let c := AudioStream.audioDiffAvgCount (this w) in
  0 <= c <= AUDIO_DIFF_AVG_NB ->
  let '(pkt, w', t) := convert iFrame w in
  let c' := AudioStream.audioDiffAvgCount (this w') in
  0 <= c' <= AUDIO_DIFF_AVG_NB /\
  ((in_sync d = true /\ c < AUDIO_DIFF_AVG_NB /\ c' = c + 1)
   \/
   (in_sync d = true /\ c = AUDIO_DIFF_AVG_NB /\ c' = c)
   \/
   ((qIsNaN d = true \/ no_sync d = true) /\ c' = 0 /\
    AudioStream.audioDiffCum (this w') = zero)).
Proof.
  intros d c Hc.
  destruct (convert iFrame w) as [[pkt w'] t] eqn:Hconv.
  unfold AUDIO_DIFF_AVG_NB in *.
  destruct (count_step iFrame w pkt w' t Hconv)
    as [(Hs & Hlt & Hc') | [(Hs & Hge & Hc') | (Hd & Hc' & Hcum)]];
    fold d in Hs || fold d in Hd; fold c in Hc'; cbv zeta.
  - unfold AUDIO_DIFF_AVG_NB in *.
    assert (Hadd : Int.add c 1 = c + 1).
    { apply int_small. unfold Int.is_int, Int.INT_MIN, Int.INT_MAX. lia. }
    rewrite Hc', Hadd. split; [lia | ]. left. auto.
  - unfold AUDIO_DIFF_AVG_NB in *. rewrite Hc'. split; [lia | ].
    right. left. repeat split; auto. lia.
  - rewrite Hc'. split; [lia | ]. right. right. auto.
Qed.

(** From a state within the range, every sequence of frames and clock
    readings keeps [audioDiffAvgCount] within the range. *)
Lemma convert_all_count_range (inputs : list (AVFrame.t * qreal)) :
  forall w : W,
    0 <= AudioStream.audioDiffAvgCount (this w) <= AUDIO_DIFF_AVG_NB ->
    Forall (fun r : Packet * W * list Ev =>
              0 <= AudioStream.audioDiffAvgCount (this (snd (fst r)))
                <= AUDIO_DIFF_AVG_NB)
           (convert_all inputs w).
Proof.
  induction inputs as [ | [iFrame c] rest IH]; intros w Hw; cbn [convert_all].
  - constructor.
  - destruct (convert iFrame (at_clock c w)) as [[pkt w'] t] eqn:Hconv.
    assert (Hw' : 0 <= AudioStream.audioDiffAvgCount (this w') <= AUDIO_DIFF_AVG_NB).
    { unfold AUDIO_DIFF_AVG_NB in *.
      destruct (count_step iFrame (at_clock c w) pkt w' t Hconv)
        as [(_ & Hlt & Hc') | [(_ & Hge & Hc') | (_ & Hc' & _)]];
        cbn [at_clock this] in *; unfold AUDIO_DIFF_AVG_NB in *.
      - rewrite Hc'. unfold Int.add. rewrite int_small;
          unfold Int.is_int, Int.INT_MIN, Int.INT_MAX; lia.
      - lia.
      - lia. }
    constructor; [exact Hw' | apply IH; exact Hw'].
Qed.

(** ** The compensation target (claims C1, C2) *)

Lemma qBound_between (lo x hi : Z) : lo <= hi -> lo <= qBound lo x hi <= hi.
Proof.
  intros H. unfold qBound, qMax, qMin.
  destruct (Z.ltb_spec hi x);
    match goal with |- context [if ?a <? ?b then _ else _] =>
      destruct (Z.ltb_spec a b) end; lia.
Qed.

Lemma percent_exact (n k : Z) :
  0 <= n -> 0 <= k -> n * k <= Int.INT_MAX ->
  Int.div (Int.mul n k) 100 = n * k / 100.
Proof.
  intros Hn Hk Hmax. unfold Int.div, Int.mul.
  assert (H0 : 0 <= n * k) by now apply Z.mul_nonneg_nonneg.
  rewrite (int_small (n * k))
    by (unfold Int.is_int, Int.INT_MIN, Int.INT_MAX in *; lia).
  rewrite Z.quot_div_nonneg by lia.
  apply int_small. unfold Int.is_int, Int.INT_MIN, Int.INT_MAX in *.
  assert (n * k / 100 <= n * k) by (apply Z.div_le_upper_bound; lia).
  assert (0 <= n * k / 100) by (apply Z.div_pos; lia).
  lia.
Qed.

Lemma clamped_target_bounds (d : qreal) (n r : Z) :
  0 <= n -> n * 110 <= Int.INT_MAX ->
  n * 90 / 100 <= clamped_target d n r <= n * 110 / 100.
Proof.
  intros Hn Hmax. unfold clamped_target, SAMPLE_CORRECTION_PERCENT_MAX.
  change (100 - 10) with 90. change (100 + 10) with 110.
  rewrite (percent_exact n 90), (percent_exact n 110) by lia.
  apply qBound_between. apply Z.div_le_mono; lia.
Qed.

Lemma estimate_target (coef cum : qreal) (cnt : Z) (d : qreal) (n r : Z) :
  snd (estimate coef cum cnt d n r) = n \/
  snd (estimate coef cum cnt d n r) = clamped_target d n r.
Proof.
  unfold estimate.
  repeat match goal with |- context [if ?c then _ else _] => destruct c end;
    cbn [snd]; auto.
Qed.

(** C2, as the code has it.  The bounds of the clamp are computed in
    [int] arithmetic, [nb_samples * 90 / 100] and
    [nb_samples * 110 / 100], both truncated: for a frame of
    [0 <= nb_samples <= INT_MAX / 110] samples the [wantedSamples] of the
    call (the count the sync block hands on, the one in the compensation
    request and the only one the resampler is asked to produce) lies
    between these two, whether or not compensation is requested; so it is
    at most [1.1 * nb_samples] and more than [0.9 * nb_samples - 1]. *)
Theorem wantedSamples_within_truncated_bounds (iFrame : AVFrame.t) (w : W) :
  let n := AVFrame.nb_samples iFrame in
  0 <= n -> n * 110 <= Int.INT_MAX ->
  let ws := snd (estimate (AudioStream.audioDiffAvgCoef (this w))
                          (AudioStream.audioDiffCum (this w))
                          (AudioStream.audioDiffAvgCount (this w))
                          (clock_diff w iFrame) n
                          (AVFrame.sample_rate iFrame)) in
  let '(pkt, w', t) := convert iFrame w in
  match fst (fst (synchronize iFrame w)) with
  | Next wantedSamples => wantedSamples = ws
  | Return _ => True
  end /\
  compensations t = (if ws =? n then [] else [(Int.sub ws n, ws)]) /\
  incl (conversions t) [(target_frame iFrame ws, iFrame)] /\
  n * 90 / 100 <= ws <= n * 110 / 100 /\
  9 * n < 10 * (ws + 1) /\
  10 * ws <= 11 * n.
Proof.
  intros n Hn Hmax ws.
  assert (Hrange : n * 90 / 100 <= ws <= n * 110 / 100).
  { destruct (estimate_target (AudioStream.audioDiffAvgCoef (this w))
                (AudioStream.audioDiffCum (this w))
                (AudioStream.audioDiffAvgCount (this w))
                (clock_diff w iFrame) n (AVFrame.sample_rate iFrame)) as [H | H];
      fold ws in H; rewrite H.
    - split.
      + apply Z.div_le_upper_bound; lia.
      + apply Z.div_le_lower_bound; lia.
    - now apply clamped_target_bounds. }
  destruct (convert iFrame w) as [[pkt w'] t] eqn:Hconv.
  destruct (estimate (AudioStream.audioDiffAvgCoef (this w))
                     (AudioStream.audioDiffCum (this w))
                     (AudioStream.audioDiffAvgCount (this w))
                     (clock_diff w iFrame) n (AVFrame.sample_rate iFrame))
    as [[cum cnt] ws0] eqn:Hest.
  subst ws. cbn [snd] in *.
  destruct (convert_observables iFrame w _ _ _ _ _ _ Hest Hconv)
    as (Hcomp & Hincl & _).
  split; [ | split; [exact Hcomp | split; [exact Hincl | split; [exact Hrange | ]]]].
  - destruct (synchronize iFrame w) as [[o w1] t1] eqn:Hsyn.
    destruct (synchronize_estimate iFrame w _ _ _ _ _ _ Hest Hsyn)
      as (_ & _ & _ & [(-> & _) | (-> & _)]); cbn; auto.
  - pose proof (Z.mul_succ_div_gt (n * 90) 100 ltac:(lia)).
    pose proof (Z.mul_div_le (n * 110) 100 ltac:(lia)).
    lia.
Qed.

(** The estimator decides what [convert_all] observes, frame by frame. *)
Lemma convert_all_estimate_all (inputs : list (AVFrame.t * qreal)) :
  forall w : W,
    map (fun r : Packet * W * list Ev =>
           (compensations (snd r),
            AudioStream.audioDiffAvgCount (this (snd (fst r)))))
        (convert_all inputs w)
    = estimate_all
        (AudioStream.audioDiffAvgCoef (this w))
        (AudioStream.audioDiffCum (this w))
        (AudioStream.audioDiffAvgCount (this w))
        (map (fun i : AVFrame.t * qreal =>
                (sub (pts_seconds (this w) (fst i)) (snd i),
                 AVFrame.nb_samples (fst i),
                 AVFrame.sample_rate (fst i)))
             inputs).
Proof.
  induction inputs as [ | [iFrame c] rest IH]; intros w; [reflexivity | ].
  cbn [convert_all map estimate_all fst snd].
  destruct (convert iFrame (at_clock c w)) as [[pkt w'] t] eqn:Hconv.
  destruct (estimate (AudioStream.audioDiffAvgCoef (this w))
                     (AudioStream.audioDiffCum (this w))
                     (AudioStream.audioDiffAvgCount (this w))
                     (sub (pts_seconds (this w) iFrame) c)
                     (AVFrame.nb_samples iFrame) (AVFrame.sample_rate iFrame))
    as [[cum cnt] ws] eqn:Hest.
  destruct (convert_spec iFrame (at_clock c w) cum cnt ws pkt w' t Hest Hconv)
    as (Hcum & Hcnt & (_ & _ & Htb & _ & _ & _ & Hcoef) & _).
  destruct (convert_observables iFrame (at_clock c w) cum cnt ws pkt w' t Hest Hconv)
    as (Hcomp & _).
  cbn [at_clock this] in *.
  cbn [fst snd]. rewrite Hcomp, Hcnt. f_equal.
  rewrite IH, Hcum, Hcnt, Hcoef. f_equal.
  apply map_ext. intros [f k]. unfold pts_seconds. now rewrite Htb.
Qed.

Lemma map_constant {A B : Type} (g : A -> B) (x : B) (l : list A) :
  Forall (fun i => g i = x) l -> map g l = repeat x (length l).
Proof.
  induction 1 as [ | i l Hi _ IH]; cbn; [reflexivity | now rewrite Hi, IH].
Qed.

(** C1, as the code has it (Scenario C).  A fresh stream whose decay
    coefficient [exp(log(0.01) / 20)] is 0.7943282347242815 converts 25
    frames of 1024 samples at 48000 Hz, each with [diff = 0.1]: frames 1
    to 20 request no compensation and only count up [audioDiffAvgCount],
    and each of frames 21 to 25 requests compensation once, with
    [wantedSamples = qBound(921, 1024 + int(0.1 * 48000), 1126) = 1126],
    that is 102 samples over 1126; the bounds of the clamp are
    [1024 * 90 / 100 = 921] and [1024 * 110 / 100 = 1126] in [int]
    arithmetic. *)
Theorem scenario_C_compensation (index id : Z) (timeBase : AkFrac)
    (codecContext : AVCodecContext.t) (clockDiff clock0 : qreal)
    (inputs : list (AVFrame.t * qreal)) :
  exp (div (log c0_01) (of_Z AUDIO_DIFF_AVG_NB)) = decayCoefficient ->
  let a := AudioStream_new index id timeBase codecContext clockDiff in
  length inputs = 25%nat ->
  Forall (fun i : AVFrame.t * qreal =>
            (sub (pts_seconds a (fst i)) (snd i),
             AVFrame.nb_samples (fst i),
             AVFrame.sample_rate (fst i)) = (c0_1, 1024, 48000))
         inputs ->
  map (fun r : Packet * W * list Ev =>
         (compensations (snd r),
          AudioStream.audioDiffAvgCount (this (snd (fst r)))))
      (convert_all inputs {| this := a; clock := clock0 |})
  = map (fun k => ([], Z.of_nat k)) (seq 1 20)
    ++ repeat ([(102, 1126)], 20) 5.
Proof.
  intros Hcoef a Hlen Hin.
  rewrite convert_all_estimate_all. cbn [this].
  rewrite (map_constant _ _ _ Hin), Hlen.
  unfold a, AudioStream_new.
  cbn [AudioStream.audioDiffAvgCoef AudioStream.audioDiffCum
       AudioStream.audioDiffAvgCount].
  rewrite Hcoef. vm_compute. reflexivity.
Qed.


(** ** Negotiation and packet assembly (claims C6, C10) *)

Lemma contains_sampleFormats (f : Z) :
  QMap.contains sampleFormats f = existsb (Z.eqb f) supported_formats.
Proof.
  unfold QMap.contains. cbn.
  destruct (f =? AV_SAMPLE_FMT_U8), (f =? AV_SAMPLE_FMT_S16),
    (f =? AV_SAMPLE_FMT_S32), (f =? AV_SAMPLE_FMT_FLT); reflexivity.
Qed.

Lemma contains_channelLayouts (l : Z) :
  QMap.contains channelLayouts l = existsb (Z.eqb l) supported_layouts.
Proof.
  unfold QMap.contains. cbn.
  destruct (l =? AV_CH_LAYOUT_STEREO), (l =? AV_CH_LAYOUT_MONO); reflexivity.
Qed.

Lemma negotiated_format_spec (iFormat : Z) :
  @negotiated_format _ _ L iFormat =
    spec_format (av_get_packed_sample_fmt iFormat).
Proof.
  unfold negotiated_format, spec_format.
  now rewrite contains_sampleFormats.
Qed.

Lemma negotiated_layout_spec (l : Z) : negotiated_layout l = spec_layout l.
Proof.
  unfold negotiated_layout, spec_layout.
  now rewrite contains_channelLayouts.
Qed.

(** [caps] looks the layout up and maps it back to a mask; the result is
    the negotiated layout. *)
Lemma caps_layout_key (l : Z) :
  QMap.value channelLayouts l Layout_stereo =
    QMap.value channelLayouts (negotiated_layout l) Layout_none /\
  QMap.key AkAudioCaps.ChannelLayout_eqb channelLayouts
           (QMap.value channelLayouts l Layout_stereo) AV_CH_LAYOUT_STEREO
    = negotiated_layout l.
Proof.
  unfold negotiated_layout, QMap.contains, QMap.value. cbn.
  destruct (Z.eqb_spec l AV_CH_LAYOUT_STEREO) as [-> | H3]; [now split | ].
  destruct (Z.eqb_spec l AV_CH_LAYOUT_MONO) as [-> | H4]; now split.
Qed.

Lemma existsb_eqb_In (x : Z) (l : list Z) :
  existsb (Z.eqb x) l = true <-> In x l.
Proof.
  rewrite existsb_exists. split.
  - intros (y & Hy & Hxy). apply Z.eqb_eq in Hxy. now subst.
  - intros H. exists x. split; [exact H | apply Z.eqb_refl].
Qed.

(** Every call of [convert] either is cut short by a rejected
    compensation request or configures the resampler exactly once, with
    the negotiated target. *)
Lemma convert_configurations (iFrame : AVFrame.t) (w : W) :
  forall pkt w' t,
    convert iFrame w = (pkt, w', t) ->
    (configurations t = [] /\ conversions t = [] /\
     pkt = AkPacket_empty /\ compensations t <> [])
    \/
    (configurations t = [configuration iFrame] /\
     (exists ws, incl (conversions t) [(target_frame iFrame ws, iFrame)]) /\
     match pkt with
     | AkPacket_empty => True
     | AkPacket_audio p =>
         p = {| AkAudioPacket.caps :=
                  packet_caps iFrame (AkAudioCaps.samples (AkAudioPacket.caps p));
                AkAudioPacket.buffer := AkAudioPacket.buffer p;
                AkAudioPacket.pts := AVFrame.pts iFrame;
                AkAudioPacket.timeBase := AudioStream.timeBase (this w);
                AkAudioPacket.index := Int.int (AudioStream.index (this w));
                AkAudioPacket.id := AudioStream.id (this w) |}
     end).
Proof.
  intros pkt w' t Hconv.
  destruct (estimate (AudioStream.audioDiffAvgCoef (this w))
                     (AudioStream.audioDiffCum (this w))
                     (AudioStream.audioDiffAvgCount (this w))
                     (clock_diff w iFrame) (AVFrame.nb_samples iFrame)
                     (AVFrame.sample_rate iFrame))
    as [[cum cnt] ws] eqn:Hest.
  destruct (convert_spec iFrame w _ _ _ _ _ _ Hest Hconv)
    as (_ & _ & _ & [(-> & _ & _ & _ & _ & _ & ->)
                    | (_ & _ & rest & -> & Hout & _)]).
  - left. cbn. repeat split; auto. discriminate.
  - right. destruct (outcome_silent _ _ _ _ _ Hout) as (Hc & Hw & Hf & Hv).
    change (configure_event iFrame :: rest)
      with ([configure_event iFrame] ++ rest).
    unfold conversions in *.
    rewrite !configurations_app, !flat_map_app, Hf.
    split; [ | split].
    + destruct (ws =? AVFrame.nb_samples iFrame), (no_sync (clock_diff w iFrame));
        reflexivity.
    + exists ws.
      destruct (ws =? AVFrame.nb_samples iFrame), (no_sync (clock_diff w iFrame));
        exact Hv.
    + destruct Hout; cbn; auto.
Qed.

(** [convert] itself emits no signal. *)
Lemma convert_emits_no_signal (iFrame : AVFrame.t) (w : W) :
  forall pkt w' t,
    convert iFrame w = (pkt, w', t) ->
    Forall (fun e : Ev =>
              match e with
              | EvOStream _ | EvFrameSent => False
              | _ => True
              end) t.
Proof.
  intros pkt w' t Hconv.
  destruct (estimate (AudioStream.audioDiffAvgCoef (this w))
                     (AudioStream.audioDiffCum (this w))
                     (AudioStream.audioDiffAvgCount (this w))
                     (clock_diff w iFrame) (AVFrame.nb_samples iFrame)
                     (AVFrame.sample_rate iFrame))
    as [[cum cnt] ws] eqn:Hest.
  destruct (convert_spec iFrame w _ _ _ _ _ _ Hest Hconv)
    as (_ & _ & _ & [(_ & _ & _ & _ & _ & _ & ->)
                    | (_ & _ & rest & -> & Hout & _)]).
  - repeat constructor.
  - destruct (ws =? AVFrame.nb_samples iFrame), (no_sync (clock_diff w iFrame));
      destruct Hout; repeat constructor.
Qed.


(** C10.  [convert] never changes the sample rate: whenever it
    configures the resampler, input and output rate are both the frame's
    [sample_rate] (and it does configure it, once, unless a rejected
    compensation request has ended the call); the frame the resampler is
    asked to fill has that rate; and the caps of the packet it returns,
    which is the packet [processData] emits, carry that rate. *)
Theorem rate_is_preserved (iFrame : AVFrame.t) (w : W) :
  let '(pkt, w', t) := convert iFrame w in
  Forall (fun cfg : Z * Z * Z * Z * Z * Z =>
            let '(_, _, out_rate, _, _, in_rate) := cfg in
            out_rate = AVFrame.sample_rate iFrame /\
            in_rate = AVFrame.sample_rate iFrame)
         (configurations t) /\
  (length (configurations t) = 1%nat \/
   (configurations t = [] /\ pkt = AkPacket_empty /\ compensations t <> [])) /\
  Forall (fun c : AVFrame.t * AVFrame.t =>
            AVFrame.sample_rate (fst c) = AVFrame.sample_rate iFrame)
         (conversions t) /\
  match pkt with
  | AkPacket_empty => True
  | AkPacket_audio p =>
      AkAudioCaps.rate (AkAudioPacket.caps p) = AVFrame.sample_rate iFrame
  end /\
  let '(frame, _, t') := processData iFrame w in
  AVFrame.sample_rate frame = AVFrame.sample_rate iFrame /\
  Forall (fun e : Ev =>
            match e with
            | EvOStream (AkPacket_audio p) =>
                AkAudioCaps.rate (AkAudioPacket.caps p)
                  = AVFrame.sample_rate iFrame
            | EvAllocSetOpts _ _ out_rate _ _ in_rate =>
                out_rate = AVFrame.sample_rate iFrame /\
                in_rate = AVFrame.sample_rate iFrame
            | _ => True
            end) t'.
Proof.
  assert (Hgen : forall f w0 pkt w' t,
    convert f w0 = (pkt, w', t) ->
    Forall (fun cfg : Z * Z * Z * Z * Z * Z =>
              let '(_, _, out_rate, _, _, in_rate) := cfg in
              out_rate = AVFrame.sample_rate f /\
              in_rate = AVFrame.sample_rate f)
           (configurations t) /\
    (length (configurations t) = 1%nat \/
     (configurations t = [] /\ pkt = AkPacket_empty /\ compensations t <> [])) /\
    Forall (fun c : AVFrame.t * AVFrame.t =>
              AVFrame.sample_rate (fst c) = AVFrame.sample_rate f)
           (conversions t) /\
    match pkt with
    | AkPacket_empty => True
    | AkPacket_audio p =>
        AkAudioCaps.rate (AkAudioPacket.caps p) = AVFrame.sample_rate f
    end).
  { intros f w0 pkt w' t Hconv.
    destruct (convert_configurations f w0 pkt w' t Hconv)
      as [(Hc & Hv & -> & Hcomp) | (Hc & (ws & Hv) & Hp)].
    - rewrite Hc, Hv. repeat split; auto.
    - rewrite Hc. split; [ | split; [ | split]].
      + constructor; [ | constructor]. cbn. auto.
      + now left.
      + apply Forall_forall. intros c Hin. apply Hv in Hin.
        destruct Hin as [<- | []]. reflexivity.
      + destruct pkt as [ | p]; [exact I | ]. rewrite Hp. reflexivity. }
  destruct (convert iFrame w) as [[pkt w'] t] eqn:Hconv.
  destruct (Hgen _ _ _ _ _ Hconv) as (H1 & H2 & H3 & H4).
  split; [exact H1 | split; [exact H2 | split; [exact H3 | split; [exact H4 | ]]]].
  unfold processData.
  match goal with |- context [convert ?f w] =>
    destruct (convert f w) as [[pkt2 w2] t2] eqn:Hconv2;
    destruct (Hgen _ _ _ _ _ Hconv2) as (G1 & _ & _ & G4);
    destruct (convert_configurations _ _ _ _ _ Hconv2) as [Hk | Hk]
  end; cbn [AVFrame.set_pts AVFrame.sample_rate] in *.
  all: split; [reflexivity | ].
  all: apply Forall_app; split;
    [ | constructor; [destruct pkt2; [exact I | exact G4] | repeat constructor]].
  all: pose proof (convert_emits_no_signal _ _ _ _ _ Hconv2) as Hsig.
  all: rewrite Forall_forall in Hsig, G1.
  all: apply Forall_forall; intros e He; specialize (Hsig e He).
  all: destruct e as [c | sd cd | ol of_ or_ il if_ ir | o i | er | pk | ];
    try exact I; try contradiction.
  all: apply (G1 (ol, of_, or_, il, if_, ir)).
  all: unfold configurations; apply in_flat_map; eexists;
    split; [exact He | now left].
Qed.

(** ** Emission and timestamp repair (claims C7, C8) *)

(** A failure of the resampler leaves [convert] with the empty packet:
    a logged conversion error, a context that is NULL after the call, or
    a call that never configured the resampler. *)
Lemma convert_failure_empty (iFrame : AVFrame.t) (w : W) :
  forall pkt w' t,
    convert iFrame w = (pkt, w', t) ->
    ((exists error, In (EvDebug error) t) -> pkt = AkPacket_empty) /\
    (AudioStream.m_resampleContext (this w') = None -> pkt = AkPacket_empty) /\
    (configurations t = [] -> pkt = AkPacket_empty).
Proof.
  intros pkt w' t Hconv.
  destruct (estimate (AudioStream.audioDiffAvgCoef (this w))
                     (AudioStream.audioDiffCum (this w))
                     (AudioStream.audioDiffAvgCount (this w))
                     (clock_diff w iFrame) (AVFrame.nb_samples iFrame)
                     (AVFrame.sample_rate iFrame))
    as [[cum cnt] ws] eqn:Hest.
  destruct (convert_configurations iFrame w pkt w' t Hconv)
    as [(_ & _ & -> & _) | (Hc & _ & _)]; [auto | ].
  destruct (convert_spec iFrame w _ _ _ _ _ _ Hest Hconv)
    as (_ & _ & _ & [(-> & _) | (_ & _ & rest & -> & Hout & Hnone)]); [auto | ].
  split; [ | split; [exact Hnone | rewrite Hc; discriminate]].
  intros (error & Hin).
  destruct Hout as [ | e He | samples oBuffer]; [reflexivity | reflexivity | ].
  exfalso.
  destruct (ws =? AVFrame.nb_samples iFrame), (no_sync (clock_diff w iFrame));
    cbn in Hin; intuition discriminate.
Qed.

(** What the sync block hands on, by the result of the compensation
    call. *)
Lemma synchronize_by_call (iFrame : AVFrame.t) (w : W) :
  forall o w1 t,
    synchronize iFrame w = (o, w1, t) ->
    AudioStream.m_resampleContext (this w1) = snd (compensation_call w iFrame) /\
    ((fst (compensation_call w iFrame) < 0 /\ o = Return AkPacket_empty)
     \/
     (0 <= fst (compensation_call w iFrame) /\
      o = Next (wantedSamples_of w iFrame))).
Proof.
  intros o w1 t.
  unfold compensation_call, wantedSamples_of, estimate, clamped_target.
  run_body.
  set (d := clock_diff w iFrame).
  change (sub (mul (of_Z (AVFrame.pts iFrame))
                   (AkFrac_value (AudioStream.timeBase (this w))))
              (clock w)) with d.
  set (n := AVFrame.nb_samples iFrame).
  change (negb (qIsNaN d) && lt (qAbs d) AV_NOSYNC_THRESHOLD) with (in_sync d).
  assert (Hkeep : forall (cum : qreal) (cnt : Z) (this1 : Stream) (c1 : qreal)
                         (t1 : list Ev),
    AudioStream.m_resampleContext this1
      = AudioStream.m_resampleContext (this w) ->
    (Next n, {| this := this1; clock := c1 |}, t1) = (o, w1, t) ->
    AudioStream.m_resampleContext (this w1)
      = snd (if n =? n then (0, AudioStream.m_resampleContext (this w))
             else swr_set_compensation (AudioStream.m_resampleContext (this w))
                    (Int.sub n n) n) /\
    ((fst (if n =? n then (0, AudioStream.m_resampleContext (this w))
           else swr_set_compensation (AudioStream.m_resampleContext (this w))
                  (Int.sub n n) n) < 0 /\ o = Return AkPacket_empty)
     \/
     (0 <= fst (if n =? n then (0, AudioStream.m_resampleContext (this w))
                else swr_set_compensation (AudioStream.m_resampleContext (this w))
                       (Int.sub n n) n) /\ o = Next n))).
  { intros cum cnt this1 c1 t1 Hctx [= <- <- <-]. rewrite Z.eqb_refl.
    cbn [fst snd this]. split; [exact Hctx | right; split; [lia | reflexivity]]. }
  destruct (in_sync d) eqn:Hsync; run_body.
  - destruct (AudioStream.audioDiffAvgCount (this w) <? AUDIO_DIFF_AVG_NB)
      eqn:Hcnt; run_body.
    + cbn [snd].
      destruct (ge (qAbs d) AV_NOSYNC_THRESHOLD); run_body;
        apply (Hkeep zero 0); reflexivity.
    + match goal with |- context [if ge ?a ?b then _ else _] =>
        destruct (ge a b) eqn:Hthr end; run_body; cbn [snd].
      * match goal with |- context [negb (?q =? n)] => set (target := q) end.
        destruct (Z.eqb_spec target n) as [Hw | Hw]; cbn [negb fst snd];
          run_body.
        -- rewrite Hw.
           destruct (ge (qAbs d) AV_NOSYNC_THRESHOLD); run_body;
             intros [= <- <- <-]; cbn [this fst snd AudioStream.m_resampleContext];
             (split; [reflexivity | right; split; [lia | reflexivity]]).
        -- destruct (swr_set_compensation (AudioStream.m_resampleContext (this w))
                       (Int.sub target n) target) as [r ctx'] eqn:Hswr.
           run_body. cbn [fst snd].
           destruct (Z.ltb_spec r 0) as [Hr | Hr]; run_body.
           ++ intros [= <- <- <-]. cbn [this AudioStream.m_resampleContext].
              split; [reflexivity | left; split; [exact Hr | reflexivity]].
           ++ destruct (ge (qAbs d) AV_NOSYNC_THRESHOLD); run_body;
                intros [= <- <- <-]; cbn [this AudioStream.m_resampleContext];
                (split; [reflexivity | right; split; [exact Hr | reflexivity]]).
      * destruct (ge (qAbs d) AV_NOSYNC_THRESHOLD); run_body;
          apply (Hkeep zero 0); reflexivity.
  - cbn [snd].
    destruct (ge (qAbs d) AV_NOSYNC_THRESHOLD); run_body;
      apply (Hkeep zero 0); reflexivity.
Qed.

(** What [resample] returns, by the results of its three calls. *)
Lemma resample_by_call (iFrame : AVFrame.t) (ws : Z) (w1 : W) :
  forall o w' t,
    resample iFrame ws w1 = (o, w', t) ->
    match swr_alloc_set_opts (AudioStream.m_resampleContext (this w1))
            (Int.int64 (negotiated_layout (AVFrame.channel_layout iFrame)))
            (negotiated_format (AVFrame.format iFrame))
            (AVFrame.sample_rate iFrame)
            (Int.int64 (AVFrame.channel_layout iFrame))
            (AVFrame.format iFrame)
            (AVFrame.sample_rate iFrame) with
    | None => o = Return AkPacket_empty
    | Some s =>
        let oFrame := target_frame iFrame ws in
        let error := fst (fst (fst (swr_convert_frame s oFrame iFrame))) in
        if avcodec_fill_audio_frame oFrame (AVFrame.channels oFrame)
             (AVFrame.format oFrame)
             (av_samples_get_buffer_size (AVFrame.channels oFrame)
                (AVFrame.nb_samples oFrame) (AVFrame.format oFrame) 1)
             1 <? 0
        then o = Return AkPacket_empty
        else if error <? 0
             then o = Return AkPacket_empty /\ In (EvDebug error) t
             else exists p, o = Next (AkPacket_audio p)
    end.
Proof.
  intros o w' t. run_body.
  fold (negotiated_layout (AVFrame.channel_layout iFrame)).
  fold (negotiated_format (AVFrame.format iFrame)).
  fold (target_frame iFrame ws).
  match goal with |- context [match ?c with Some _ => _ | None => _ end] =>
    destruct c as [s | ] eqn:Hctx end; run_body.
  - cbn [target_frame AVFrame.channels AVFrame.format AVFrame.nb_samples].
    fold (target_frame iFrame ws).
    match goal with |- context [if ?c <? 0 then _ else _] =>
      destruct (c <? 0) eqn:Hfill end; run_body.
    + now intros [= <- <- <-].
    + destruct (swr_convert_frame s (target_frame iFrame ws) iFrame)
        as [[[error s'] oFrame'] oBuffer] eqn:Hconv.
      run_body. cbn [fst].
      destruct (error <? 0) eqn:Herr; run_body; intros [= <- <- <-].
      * split; [reflexivity | ]. right. right. now left.
      * eexists. reflexivity.
  - now intros [= <- <- <-].
Qed.

(** The packet [convert] returns is empty exactly when one of the calls
    to the resampler fails, and a failed conversion is logged. *)
Lemma convert_empty_iff_failure (iFrame : AVFrame.t) (w : W) :
  forall pkt w' t,
    convert iFrame w = (pkt, w', t) ->
    (pkt = AkPacket_empty <-> resampler_fails w iFrame = true) /\
    (forall s,
       0 <= fst (compensation_call w iFrame) ->
       configure_call w iFrame = Some s ->
       0 <= fill_call w iFrame ->
       convert_frame_call w iFrame s < 0 ->
       In (EvDebug (convert_frame_call w iFrame s)) t).
Proof.
  intros pkt w' t Hconv.
  unfold resampler_fails, configure_call, fill_call, convert_frame_call.
  destruct (convert_unfold iFrame w pkt w' t Hconv)
    as [Hs | (ws' & w1 & t1 & o2 & t2 & Hs & Hr & -> & Ho2)].
  - destruct (synchronize_by_call iFrame w _ _ _ Hs)
      as (_ & [(Hrej & Ho) | (_ & Ho)]); [ | discriminate].
    injection Ho as ->. apply Z.ltb_lt in Hrej. rewrite Hrej. cbn [orb].
    split; [tauto | ]. intros s H0. apply Z.ltb_lt in Hrej. lia.
  - destruct (synchronize_by_call iFrame w _ _ _ Hs)
      as (Hctx & [(_ & Ho) | (Hacc & Ho)]); [discriminate | ].
    injection Ho as ->.
    pose proof (resample_by_call iFrame _ w1 _ _ _ Hr) as Hres.
    rewrite Hctx in Hres. apply Z.ltb_ge in Hacc. rewrite Hacc. cbn [orb].
    destruct (swr_alloc_set_opts (snd (compensation_call w iFrame)) _ _ _ _ _ _)
      as [s | ].
    + cbv zeta in Hres.
      match type of Hres with context [if ?c <? 0 then _ else _] =>
        destruct (Z.ltb_spec c 0) as [Hfill | Hfill] end; cbn [orb].
      * subst o2. destruct Ho2 as [Ho2 | Ho2]; [discriminate | ].
        injection Ho2 as <-. split; [tauto | ].
        intros s0 _ [= <-] H0. lia.
      * match type of Hres with context [if ?c <? 0 then _ else _] =>
          destruct (Z.ltb_spec c 0) as [Herr | Herr] end.
        -- destruct Hres as [-> Hin].
           destruct Ho2 as [Ho2 | Ho2]; [discriminate | ].
           injection Ho2 as <-. split; [tauto | ].
           intros s0 _ [= <-] _ _. apply in_or_app. now right.
        -- destruct Hres as [p ->].
           destruct Ho2 as [Ho2 | Ho2]; [ | discriminate].
           injection Ho2 as <-. split; [split; discriminate | ].
           intros s0 _ [= <-] _ H0. lia.
    + subst o2. destruct Ho2 as [Ho2 | Ho2]; [discriminate | ].
      injection Ho2 as <-. split; [tauto | ]. intros s0 _ H. discriminate H.
Qed.

(** C7, as the code has it.  [processData] emits [oStream] with whatever
    [convert] returns and then [frameSent], for every frame: these two
    signals are the last two events of the call and the only signals in
    it.  What [convert] returns and [oStream] carries is the empty packet
    [AkPacket()] exactly when a call to the resampler fails: when
    [swr_set_compensation] returns a negative value, when
    [swr_alloc_set_opts] returns NULL, when [avcodec_fill_audio_frame]
    returns a negative value, or when [swr_convert_frame] returns a
    negative error, which is then logged.  Accordingly the packet is
    empty whenever an error is logged, the context is NULL after the
    call, or the resampler was never configured.  [m_pts] is advanced
    all the same and nothing else of the stream is touched, so the next
    frame is processed as usual. *)
Theorem processData_emits_for_every_frame (frame : AVFrame.t) (w : W) :
  let '(frame', w', t) := processData frame w in
  let '(oPacket, w1, t0) := convert frame' w in
  t = t0 ++ [EvOStream oPacket; EvFrameSent] /\
  Forall (fun e : Ev =>
            match e with
            | EvOStream _ | EvFrameSent => False
            | _ => True
            end) t0 /\
  ((exists error, In (EvDebug error) t0) -> oPacket = AkPacket_empty) /\
  (AudioStream.m_resampleContext (this w1) = None ->
   oPacket = AkPacket_empty) /\
  (configurations t0 = [] -> oPacket = AkPacket_empty) /\
  w' = {| this := AudioStream.set_m_pts
                    (Int.add64 (AVFrame.pts frame') (AVFrame.nb_samples frame'))
                    (this w1);
          clock := clock w1 |} /\
  (* by the return codes of the resampler *)
  (oPacket = AkPacket_empty <-> resampler_fails w frame' = true) /\
  (fst (compensation_call w frame') < 0 -> oPacket = AkPacket_empty) /\
  (configure_call w frame' = None -> oPacket = AkPacket_empty) /\
  (forall s, configure_call w frame' = Some s ->
             fill_call w frame' < 0 -> oPacket = AkPacket_empty) /\
  (forall s, configure_call w frame' = Some s ->
             convert_frame_call w frame' s < 0 -> oPacket = AkPacket_empty) /\
  (forall s, 0 <= fst (compensation_call w frame') ->
             configure_call w frame' = Some s ->
             0 <= fill_call w frame' ->
             convert_frame_call w frame' s < 0 ->
             In (EvDebug (convert_frame_call w frame' s)) t0).
Proof.
  unfold processData.
  set (frame' := AVFrame.set_pts frame _).
  destruct (convert frame' w) as [[oPacket w1] t0] eqn:Hconv.
  rewrite Hconv.
  destruct (convert_failure_empty frame' w _ _ _ Hconv) as (H1 & H2 & H3).
  pose proof (convert_emits_no_signal frame' w _ _ _ Hconv) as Hsig.
  destruct (convert_empty_iff_failure frame' w _ _ _ Hconv) as (Hiff & Hlog).
  do 6 (split; [auto | ]).
  split; [exact Hiff | ].
  unfold resampler_fails in Hiff.
  split; [ | split; [ | split; [ | split; [ | exact Hlog]]]].
  - intros Hc. apply Hiff. apply Z.ltb_lt in Hc. now rewrite Hc.
  - intros Hc. apply Hiff. rewrite Hc. apply orb_true_r.
  - intros s Hc Hf. apply Hiff. rewrite Hc. apply Z.ltb_lt in Hf.
    rewrite Hf. apply orb_true_r.
  - intros s Hc He. apply Hiff. rewrite Hc. apply Z.ltb_lt in He.
    rewrite He. rewrite !orb_true_r. reflexivity.
Qed.

(** C8.  The tracked timestamp [m_pts] starts at 0.  For every frame,
    [processData] hands [convert] the frame with its own [pts], or with
    [m_pts] when the frame has none ([AV_NOPTS_VALUE]); whatever
    [convert] does and returns, [m_pts] is then the used timestamp plus
    [nb_samples] (in 64-bit arithmetic, so the exact sum whenever it
    fits). *)
Theorem timestamp_repair (index id : Z) (timeBase : AkFrac)
    (codecContext : AVCodecContext.t) (clockDiff : qreal)
    (frame : AVFrame.t) (w : W) :
  AudioStream.m_pts
    (AudioStream_new index id timeBase codecContext clockDiff) = 0 /\
  let usedTimestamp :=
    if AVFrame.pts frame =? AV_NOPTS_VALUE then AudioStream.m_pts (this w)
    else AVFrame.pts frame in
  let '(frame', w', t) := processData frame w in
  frame' = AVFrame.set_pts frame usedTimestamp /\
  t = snd (convert frame' w)
      ++ [EvOStream (fst (fst (convert frame' w))); EvFrameSent] /\
  AudioStream.m_pts (this w') =
    Int.add64 usedTimestamp (AVFrame.nb_samples frame) /\
  (Int.is_int64 (usedTimestamp + AVFrame.nb_samples frame) ->
   AudioStream.m_pts (this w') = usedTimestamp + AVFrame.nb_samples frame).
Proof.
  split; [reflexivity | ].
  intros usedTimestamp. unfold processData.
  assert (Hused : (if negb (AVFrame.pts frame =? AV_NOPTS_VALUE)
                   then AVFrame.pts frame
                   else AudioStream.m_pts (this w)) = usedTimestamp).
  { unfold usedTimestamp. now destruct (AVFrame.pts frame =? AV_NOPTS_VALUE). }
  rewrite Hused.
  destruct (convert (AVFrame.set_pts frame usedTimestamp) w)
    as [[oPacket w1] t0] eqn:Hconv.
  split; [reflexivity | split; [ | split]].
  - rewrite Hconv. reflexivity.
  - reflexivity.
  - intros Hfit. cbn. unfold Int.add64, Int.int64, Int.wrap.
    unfold Int.is_int64, Int.INT64_MIN, Int.INT64_MAX in Hfit.
    rewrite Z.mod_small; lia.
Qed.

End Properties.

(** ** The claims at concrete inputs

    A 48 kHz stereo S16 stream with time base 1/10 and frames of 1024
    samples: a frame stamped 1 has [diff = 0.1] against a clock reading
    0 and [diff = -0.1] against a clock reading 0.2; a frame stamped 1000
    has [diff = 100] against a clock reading 0. *)

Lemma scenario_C_compensation_witness :
  map (fun r => (compensations (snd r),
                 AudioStream.audioDiffAvgCount (this (snd (fst r)))))
      (convert_all (L := Mock.libav) (repeat (Mock.frame 1, zero) 25)
         {| this := AudioStream_new (L := Mock.libav) 0 0 (1, 10) Mock.codec zero;
            clock := zero |})
  = map (fun k => ([], Z.of_nat k)) (seq 1 20)
    ++ repeat ([(102, 1126)], 20) 5.
Proof.
  apply (scenario_C_compensation (L := Mock.libav) 0 0 (1, 10) Mock.codec
           zero zero (repeat (Mock.frame 1, zero) 25)).
  - vm_compute. reflexivity.
  - reflexivity.
  - repeat constructor.
Defined.

(** Scenario C on the code: frame 21 asks for 1126 samples (102 over
    1126), not for the 1127 of [clamp(5824, 922, 1127)]. *)
Lemma scenario_C_frame_21_is_1126 :
  let results :=
    convert_all (L := Mock.libav) (repeat (Mock.frame 1, zero) 25)
                (Mock.fresh Mock.libav) in
  let t21 := snd (nth 20 results (AkPacket_empty, Mock.fresh Mock.libav, [])) in
  compensations t21 = [(1126 - 1024, 1126)] /\
  ~ In (1127 - 1024, 1127) (compensations t21).
Proof.
  vm_compute. split; [reflexivity | ].
  intros [H | []]. discriminate H.
Qed.

Lemma wantedSamples_within_truncated_bounds_witness :
  let iFrame := Mock.frame 1 in
  let w := Mock.after Mock.libav 20 1 Mock.c0_2 in
  let ws := snd (estimate (AudioStream.audioDiffAvgCoef (this w))
                          (AudioStream.audioDiffCum (this w))
                          (AudioStream.audioDiffAvgCount (this w))
                          (clock_diff (L := Mock.libav) w iFrame) 1024 48000) in
  let '(pkt, w', t) := convert (L := Mock.libav) iFrame w in
  match fst (fst (synchronize (L := Mock.libav) iFrame w)) with
  | Next wantedSamples => wantedSamples = ws
  | Return _ => True
  end /\
  compensations t = (if ws =? 1024 then [] else [(Int.sub ws 1024, ws)]) /\
  incl (conversions t) [(target_frame (L := Mock.libav) iFrame ws, iFrame)] /\
  1024 * 90 / 100 <= ws <= 1024 * 110 / 100 /\
  9 * 1024 < 10 * (ws + 1) /\
  10 * ws <= 11 * 1024.
Proof.
  apply (wantedSamples_within_truncated_bounds (L := Mock.libav)
           (Mock.frame 1) (Mock.after Mock.libav 20 1 Mock.c0_2)).
  - vm_compute. discriminate.
  - vm_compute. discriminate.
Defined.

(** After 20 frames with [diff = -0.1], the 21st frame of 1024 samples
    gets [wantedSamples = 921], which is less than
    [0.9 * 1024 = 921.6]. *)
Lemma wantedSamples_below_90_percent :
  let iFrame := Mock.frame 1 in
  let w := Mock.after Mock.libav 20 1 Mock.c0_2 in
  fst (fst (synchronize (L := Mock.libav) iFrame w)) = Next 921 /\
  compensations (snd (convert (L := Mock.libav) iFrame w)) = [(-103, 921)] /\
  ~ (9 * AVFrame.nb_samples iFrame <= 10 * 921).
Proof.
  vm_compute. repeat split; try reflexivity. intros H. now apply H.
Qed.

Lemma convert_measuring_no_compensation_witness :
  let iFrame := Mock.frame 1 in
  let w := Mock.fresh Mock.libav in
  let '(pkt, w', t) := convert (L := Mock.libav) iFrame w in
  compensations t = [] /\
  fst (fst (synchronize (L := Mock.libav) iFrame w)) = Next 1024 /\
  incl (conversions t) [(target_frame (L := Mock.libav) iFrame 1024, iFrame)] /\
  AudioStream.audioDiffAvgCount (this w') = 0 + 1.
Proof.
  apply (convert_measuring_no_compensation (L := Mock.libav)
           (Mock.frame 1) (Mock.fresh Mock.libav)).
  - vm_compute. reflexivity.
  - vm_compute. reflexivity.
  - vm_compute. split; [discriminate | reflexivity].
Defined.

Lemma convert_nan_diff_witness :
  (let w := Mock.fresh_at Mock.libav S754_nan in
   let '(pkt, w', t) := convert (L := Mock.libav) (Mock.frame 1) w in
   AudioStream.audioDiffAvgCount (this w') = 0 /\
   AudioStream.audioDiffCum (this w') = zero /\
   clock_writes t = [] /\
   clock w' = clock w /\
   AudioStream.m_clockDiff (this w') = S754_nan)
  /\
  (let w := Mock.fresh Mock.libav in
   let '(pkt, w', t) := convert (L := Mock.libav) (Mock.frame 1000) w in
   clock_writes t = [of_Z 100] /\ clock w' = of_Z 100).
Proof.
  split.
  - generalize (convert_nan_diff (L := Mock.libav) (Mock.frame 1)
                  (Mock.fresh_at Mock.libav S754_nan)).
    cbv zeta.
    destruct (convert (Mock.frame 1) (Mock.fresh_at Mock.libav S754_nan))
      as [[pkt w'] t].
    intros [H _]. apply H. vm_compute. reflexivity.
  - generalize (convert_nan_diff (L := Mock.libav) (Mock.frame 1000)
                  (Mock.fresh Mock.libav)).
    cbv zeta.
    destruct (convert (Mock.frame 1000) (Mock.fresh Mock.libav))
      as [[pkt w'] t].
    intros [_ H]. apply H; vm_compute; reflexivity.
Defined.

(** Scenario B: [pts = 100.0], [clock = 0.0]. *)
Lemma convert_big_diff_resets_and_sets_clock_witness :
  let iFrame := Mock.frame 1000 in
  let w := Mock.after Mock.libav 3 1 zero in
  let '(pkt, w', t) := convert (L := Mock.libav) iFrame w in
  qIsNaN (clock_diff (L := Mock.libav) w iFrame) = false /\
  AudioStream.audioDiffCum (this w') = zero /\
  AudioStream.audioDiffAvgCount (this w') = 0 /\
  clock_writes t = [pts_seconds (L := Mock.libav) (this w) iFrame] /\
  clock w' = pts_seconds (L := Mock.libav) (this w) iFrame.
Proof.
  apply (convert_big_diff_resets_and_sets_clock (L := Mock.libav)
           (Mock.frame 1000) (Mock.after Mock.libav 3 1 zero)).
  vm_compute. reflexivity.
Defined.

Lemma convert_count_invariant_witness :
  let iFrame := Mock.frame 1 in
  let w := Mock.after Mock.libav 20 1 zero in
  let d := clock_diff (L := Mock.libav) w iFrame in
  let c := AudioStream.audioDiffAvgCount (this w) in
  let '(pkt, w', t) := convert (L := Mock.libav) iFrame w in
  let c' := AudioStream.audioDiffAvgCount (this w') in
  0 <= c' <= AUDIO_DIFF_AVG_NB /\
  ((in_sync d = true /\ c < AUDIO_DIFF_AVG_NB /\ c' = c + 1)
   \/
   (in_sync d = true /\ c = AUDIO_DIFF_AVG_NB /\ c' = c)
   \/
   ((qIsNaN d = true \/ no_sync d = true) /\ c' = 0 /\
    AudioStream.audioDiffCum (this w') = zero)).
Proof.
  apply (convert_count_invariant (L := Mock.libav)
           (Mock.frame 1) (Mock.after Mock.libav 20 1 zero)).
  vm_compute. split; discriminate.
Defined.


(** With a resampler whose conversion fails ([swr_convert_frame]
    returns -1), [convert] returns the empty packet and logs the error,
    and [processData] still emits [oStream] (with the empty packet) and
    [frameSent]. *)
Lemma processData_emits_for_every_frame_witness :
  let L := Mock.libav_failing in
  let '(frame', w', t) := processData (L := L) (Mock.frame 1) (Mock.fresh L) in
  let '(oPacket, w1, t0) := convert (L := L) frame' (Mock.fresh L) in
  convert_frame_call (L := L) (Mock.fresh L) frame' tt = -1 /\
  In (EvDebug (-1)) t0 /\
  oPacket = AkPacket_empty /\
  t = t0 ++ [EvOStream AkPacket_empty; EvFrameSent] /\
  AudioStream.m_pts (this w') = 1 + 1024.
Proof.
  intros L.
  generalize (processData_emits_for_every_frame (L := L) (Mock.frame 1)
                (Mock.fresh L)).
  destruct (processData (Mock.frame 1) (Mock.fresh L)) as [[frame' w'] t]
    eqn:Hp.
  vm_compute in Hp. injection Hp as <- <- <-.
  destruct (convert _ (Mock.fresh L)) as [[oPacket w1] t0] eqn:Hc.
  vm_compute in Hc. injection Hc as <- <- <-.
  intros (Ht & _ & _ & _ & _ & _ & _ & _ & _ & _ & Hfail & Hlog).
  split; [reflexivity | ].
  split.
  - apply (Hlog tt); vm_compute; try reflexivity; discriminate.
  - split; [ | split; reflexivity].
    apply (Hfail tt); vm_compute; reflexivity.
Defined.

(** The claim of C7 fails there: the conversion has failed (the error is
    logged) and yet [oStream] and [frameSent] are both emitted. *)
Lemma failed_conversion_still_signals :
  let L := Mock.libav_failing in
  let t := snd (processData (L := L) (Mock.frame 1) (Mock.fresh L)) in
  In (EvDebug (-1)) t /\
  In (EvOStream AkPacket_empty) t /\
  In EvFrameSent t.
Proof.
  vm_compute. intuition.
Qed.

(** A frame without a timestamp after a frame stamped 1: it is given the
    tracked [1 + 1024], and the tracked value moves to [1025 + 1024]. *)
Lemma timestamp_repair_witness :
  let w := snd (fst (processData (L := Mock.libav) (Mock.frame 1)
                       (Mock.fresh Mock.libav))) in
  let '(frame', w', t) :=
    processData (L := Mock.libav) (Mock.frame AV_NOPTS_VALUE) w in
  AVFrame.pts frame' = 1025 /\
  AudioStream.m_pts (this w') = 1025 + 1024.
Proof.
  intros w.
  generalize (timestamp_repair (L := Mock.libav) 0 0 (1, 10) Mock.codec zero
                (Mock.frame AV_NOPTS_VALUE) w).
  cbv zeta.
  destruct (processData (Mock.frame AV_NOPTS_VALUE) w) as [[frame' w'] t].
  intros (_ & -> & _ & _ & H). split; [reflexivity | ].
  apply H. vm_compute. split; discriminate.
Defined.

(** * Further properties of the code *)

Section Estimator.
Context {SwrContext AkFrac : Type} {L : Libav SwrContext AkFrac}.

Local Notation "'W'" := (World SwrContext AkFrac).
Local Notation "'Packet'" := (AkPacket AkFrac).
Local Notation "'Ev'" := (Event AkFrac).

(** A target other than [nb_samples] comes from the clamp, which is
    reached only with a usable [diff], a full history and an average
    over the threshold. *)
Lemma estimate_changed (coef cum : qreal) (cnt : Z) (d : qreal) (n r : Z) :
  snd (estimate coef cum cnt d n r) <> n ->
  in_sync d = true /\ AUDIO_DIFF_AVG_NB <= cnt /\
  estimate coef cum cnt d n r
    = (add d (mul coef cum), cnt, clamped_target d n r).
Proof.
  unfold estimate. destruct (in_sync d); [ | cbn; congruence].
  destruct (Z.ltb_spec cnt AUDIO_DIFF_AVG_NB) as [Hc | Hc]; [cbn; congruence | ].
  match goal with |- context [if ?c then _ else _] => destruct c end;
    cbn [snd]; [auto | congruence].
Qed.

Lemma estimate_triple (coef cum : qreal) (cnt : Z) (d : qreal) (n r : Z) :
  estimate coef cum cnt d n r
    = (fst (fst (estimate coef cum cnt d n r)),
       snd (fst (estimate coef cum cnt d n r)),
       snd (estimate coef cum cnt d n r)).
Proof. now destruct (estimate coef cum cnt d n r) as [[? ?] ?]. Qed.

(** X1.  [convert] writes the Global Clock exactly when
    [|diff| >= 10.0], and then once, with the frame's [pts] in seconds;
    in every other call, a rejected compensation request included, the
    clock keeps its reading. *)
Theorem clock_written_exactly_when_out_of_sync (iFrame : AVFrame.t) (w : W) :
  let d := clock_diff w iFrame in
  let p := pts_seconds (this w) iFrame in
  let '(pkt, w', t) := convert iFrame w in
  clock_writes t = (if no_sync d then [p] else []) /\
  clock w' = (if no_sync d then p else clock w).
Proof.
  intros d p. destruct (convert iFrame w) as [[pkt w'] t] eqn:Hconv.
  pose proof (estimate_triple (AudioStream.audioDiffAvgCoef (this w))
                (AudioStream.audioDiffCum (this w))
                (AudioStream.audioDiffAvgCount (this w))
                d (AVFrame.nb_samples iFrame) (AVFrame.sample_rate iFrame))
    as Hest.
  destruct (convert_spec iFrame w _ _ _ _ _ _ Hest Hconv)
    as (_ & _ & _ & [(_ & _ & Hin & _ & _ & Hck & ->)
                    | (_ & Hck & rest & -> & Hout & _)]).
  - fold d in Hin. rewrite (in_sync_no_sync d Hin).
    split; [reflexivity | exact Hck].
  - destruct (outcome_silent _ _ _ _ _ Hout) as (_ & Hw & _).
    split; [ | exact Hck].
    change (configure_event iFrame :: rest)
      with ([configure_event iFrame] ++ rest).
    rewrite !clock_writes_app, Hw. fold d. fold p.
    match goal with |- context [if ?c =? ?n then _ else _] =>
      destruct (c =? n) end;
      destruct (no_sync d); reflexivity.
Qed.

(** X2.  Every call either reaches the configuration of the resampler,
    and then [m_clockDiff] is the [diff] of the frame whatever happens
    afterwards, or is cut short by a rejected compensation request, and
    then its only effect outside the sync members is that request:
    [m_clockDiff] keeps its old value and the packet is empty. *)
Theorem diagnostic_recorded_unless_cut_short (iFrame : AVFrame.t) (w : W) :
  let d := clock_diff w iFrame in
  let '(pkt, w', t) := convert iFrame w in
  (configurations t = [configuration iFrame] /\
   AudioStream.m_clockDiff (this w') = d)
  \/
  (pkt = AkPacket_empty /\
   (exists delta distance, t = [EvSetCompensation delta distance]) /\
   AudioStream.m_clockDiff (this w') = AudioStream.m_clockDiff (this w) /\
   in_sync d = true).
Proof.
  intros d. destruct (convert iFrame w) as [[pkt w'] t] eqn:Hconv.
  pose proof (estimate_triple (AudioStream.audioDiffAvgCoef (this w))
                (AudioStream.audioDiffCum (this w))
                (AudioStream.audioDiffAvgCount (this w))
                d (AVFrame.nb_samples iFrame) (AVFrame.sample_rate iFrame))
    as Hest.
  destruct (convert_spec iFrame w _ _ _ _ _ _ Hest Hconv)
    as (_ & _ & _ & [(-> & _ & Hin & _ & Hcd & _ & ->)
                    | (Hcd & _ & rest & -> & Hout & _)]).
  - right. repeat split; eauto.
  - left. split; [ | exact Hcd].
    destruct (outcome_silent _ _ _ _ _ Hout) as (_ & _ & Hf & _).
    change (configure_event iFrame :: rest)
      with ([configure_event iFrame] ++ rest).
    rewrite !configurations_app, Hf.
    match goal with |- context [if ?c =? ?n then _ else _] =>
      destruct (c =? n) end;
      destruct (no_sync (clock_diff w iFrame)); reflexivity.
Qed.

(** X3.  The shape of a compensation request.  For a frame of
    [0 <= nb_samples <= INT_MAX / 110] samples, [convert] makes at most
    one request; a request is made only with a usable [diff] and a full
    history of 20 measures; its distance is [nb_samples] plus its delta,
    the delta is not 0, and the distance is not negative and within the
    truncated 90% and 110% of [nb_samples]. *)
Theorem compensation_request_shape (iFrame : AVFrame.t) (w : W) :
  let n := AVFrame.nb_samples iFrame in
  0 <= n -> n * 110 <= Int.INT_MAX ->
  let '(pkt, w', t) := convert iFrame w in
  (length (compensations t) <= 1)%nat /\
  Forall (fun request : Z * Z =>
            let '(sample_delta, distance) := request in
            distance = n + sample_delta /\
            sample_delta <> 0 /\
            0 <= distance /\
            n * 90 / 100 <= distance <= n * 110 / 100 /\
            in_sync (clock_diff w iFrame) = true /\
            AUDIO_DIFF_AVG_NB <= AudioStream.audioDiffAvgCount (this w))
         (compensations t).
Proof.
  intros n Hn Hmax. destruct (convert iFrame w) as [[pkt w'] t] eqn:Hconv.
  pose proof (estimate_triple (AudioStream.audioDiffAvgCoef (this w))
                (AudioStream.audioDiffCum (this w))
                (AudioStream.audioDiffAvgCount (this w))
                (clock_diff w iFrame) n (AVFrame.sample_rate iFrame))
    as Hest.
  destruct (convert_observables iFrame w _ _ _ _ _ _ Hest Hconv)
    as (Hcomp & _).
  fold n in Hcomp. rewrite Hcomp.
  match goal with |- context [if ?c =? n then _ else _] =>
    set (ws := c) in *; destruct (Z.eqb_spec ws n) as [Heq | Hne] end.
  - split; [cbn; lia | constructor].
  - split; [cbn; lia | ].
    destruct (estimate_changed _ _ _ _ _ _ Hne) as (Hin & Hcnt & Hval).
    assert (Hws : ws = clamped_target (clock_diff w iFrame) n
                         (AVFrame.sample_rate iFrame))
      by (unfold ws; rewrite Hval; reflexivity).
    pose proof (clamped_target_bounds (clock_diff w iFrame) n
                  (AVFrame.sample_rate iFrame) Hn Hmax) as Hb.
    rewrite <- Hws in Hb.
    assert (H0 : 0 <= n * 90 / 100) by (apply Z.div_pos; lia).
    assert (H1 : n * 110 / 100 <= n * 110)
      by (apply Z.div_le_upper_bound; lia).
    assert (Hsub : Int.sub ws n = ws - n).
    { apply int_small.
      unfold Int.is_int, Int.INT_MIN, Int.INT_MAX in *. lia. }
    constructor; [ | constructor].
    rewrite Hsub. repeat split; try lia; assumption.
Qed.

(** While the history is being filled, no frame requests compensation. *)
Lemma warm_up_silent (inputs : list (AVFrame.t * qreal)) :
  forall w : W,
    0 <= AudioStream.audioDiffAvgCount (this w) ->
    Z.of_nat (length inputs)
      <= AUDIO_DIFF_AVG_NB - AudioStream.audioDiffAvgCount (this w) ->
    Forall (fun r : Packet * W * list Ev => compensations (snd r) = [])
           (convert_all inputs w).
Proof.
  induction inputs as [ | [iFrame c] rest IH]; intros w H0 Hlen;
    cbn [convert_all]; [constructor | ].
  cbn [length] in Hlen.
  destruct (convert iFrame (at_clock c w)) as [[pkt w'] t] eqn:Hconv.
  cbn [fst snd].
  assert (Hc : AudioStream.audioDiffAvgCount (this (at_clock c w))
               < AUDIO_DIFF_AVG_NB) by (cbn [at_clock this]; lia).
  destruct (in_sync (clock_diff (at_clock c w) iFrame)) eqn:Hs.
  - pose proof (estimate_measuring
                  (AudioStream.audioDiffAvgCoef (this (at_clock c w)))
                  (AudioStream.audioDiffCum (this (at_clock c w)))
                  _ _ (AVFrame.nb_samples iFrame) (AVFrame.sample_rate iFrame)
                  Hs Hc) as Hest.
    destruct (convert_spec iFrame _ _ _ _ _ _ _ Hest Hconv) as (_ & Hcnt & _).
    destruct (convert_observables iFrame _ _ _ _ _ _ _ Hest Hconv)
      as (Hcomp & _).
    rewrite Z.eqb_refl in Hcomp. cbn [at_clock this] in *.
    unfold AUDIO_DIFF_AVG_NB in *.
    assert (Hadd : AudioStream.audioDiffAvgCount (this w')
                   = AudioStream.audioDiffAvgCount (this w) + 1).
    { rewrite Hcnt. apply int_small.
      unfold Int.is_int, Int.INT_MIN, Int.INT_MAX. lia. }
    constructor; [exact Hcomp | apply IH; unfold AUDIO_DIFF_AVG_NB; lia].
  - pose proof (estimate_reset
                  (AudioStream.audioDiffAvgCoef (this (at_clock c w)))
                  (AudioStream.audioDiffCum (this (at_clock c w)))
                  (AudioStream.audioDiffAvgCount (this (at_clock c w)))
                  _ (AVFrame.nb_samples iFrame) (AVFrame.sample_rate iFrame)
                  Hs) as Hest.
    destruct (convert_spec iFrame _ _ _ _ _ _ _ Hest Hconv) as (_ & Hcnt & _).
    destruct (convert_observables iFrame _ _ _ _ _ _ _ Hest Hconv)
      as (Hcomp & _).
    rewrite Z.eqb_refl in Hcomp. unfold AUDIO_DIFF_AVG_NB in *.
    constructor; [exact Hcomp | apply IH; unfold AUDIO_DIFF_AVG_NB; lia].
Qed.

(** X4.  Warm-up.  From a stream that has taken [k] measures
    ([0 <= k <= 20], 0 for a fresh stream), the next [20 - k] frames
    request no compensation, whatever their [diff], size and rate. *)
Theorem no_compensation_during_warm_up
    (inputs : list (AVFrame.t * qreal)) (w : W) :
  0 <= AudioStream.audioDiffAvgCount (this w) ->
  Z.of_nat (length inputs)
    <= AUDIO_DIFF_AVG_NB - AudioStream.audioDiffAvgCount (this w) ->
  Forall (fun r : Packet * W * list Ev => compensations (snd r) = [])
         (convert_all inputs w).
Proof. apply warm_up_silent. Qed.

(** X5.  Discontinuity.  After any frame whose [diff] is NaN or
    satisfies [|diff| >= 10.0], whatever the state of the stream before
    it, neither that frame nor any of the next 20 requests
    compensation. *)
Theorem no_compensation_after_discontinuity
    (iFrame : AVFrame.t) (c : qreal) (inputs : list (AVFrame.t * qreal))
    (w : W) :
  in_sync (clock_diff (at_clock c w) iFrame) = false ->
  (length inputs <= 20)%nat ->
  Forall (fun r : Packet * W * list Ev => compensations (snd r) = [])
         (convert_all ((iFrame, c) :: inputs) w).
Proof.
  intros Hs Hlen. cbn [convert_all].
  destruct (convert iFrame (at_clock c w)) as [[pkt w'] t] eqn:Hconv.
  cbn [fst snd].
  pose proof (estimate_reset
                (AudioStream.audioDiffAvgCoef (this (at_clock c w)))
                (AudioStream.audioDiffCum (this (at_clock c w)))
                (AudioStream.audioDiffAvgCount (this (at_clock c w)))
                _ (AVFrame.nb_samples iFrame) (AVFrame.sample_rate iFrame)
                Hs) as Hest.
  destruct (convert_spec iFrame _ _ _ _ _ _ _ Hest Hconv) as (_ & Hcnt & _).
  destruct (convert_observables iFrame _ _ _ _ _ _ _ Hest Hconv)
    as (Hcomp & _).
  rewrite Z.eqb_refl in Hcomp.
  constructor; [exact Hcomp | ].
  apply warm_up_silent; rewrite Hcnt; unfold AUDIO_DIFF_AVG_NB; lia.
Qed.

End Estimator.

(** ** A rejected request, degenerate frames, the direction of the
       compensation *)

Section Compensation.
Context {SwrContext AkFrac : Type} {L : Libav SwrContext AkFrac}.

Local Notation "'W'" := (World SwrContext AkFrac).
Local Notation "'Packet'" := (AkPacket AkFrac).
Local Notation "'Ev'" := (Event AkFrac).

Ltac step_body :=
  cbv beta iota zeta delta
    [synchronize convert Body.bind Body.gets Body.modify Body.emit
     Body.ret Body.return_ Body.call on_this setClock];
  cbn [this clock fst snd app
       AudioStream.index AudioStream.id AudioStream.timeBase
       AudioStream.codecContext AudioStream.m_maxData
       AudioStream.m_clockDiff AudioStream.m_pts
       AudioStream.m_resampleContext AudioStream.audioDiffCum
       AudioStream.audioDiffAvgCoef AudioStream.audioDiffAvgCount
       AudioStream.set_m_clockDiff AudioStream.set_m_pts
       AudioStream.set_m_resampleContext AudioStream.set_audioDiffCum
       AudioStream.set_audioDiffAvgCount].

(** X6.  When the estimator asks for a sample count other than
    [nb_samples] and the resampler rejects the request, [convert]
    returns the empty packet at once: the request is its only event, the
    clock, [m_clockDiff], [m_pts] and [audioDiffAvgCount] are untouched
    and the resampler is not configured, but [audioDiffCum] has taken the
    new measure and the context is as the rejected call left it. *)
Theorem rejected_compensation_ends_convert (iFrame : AVFrame.t) (w : W) :
  let n := AVFrame.nb_samples iFrame in
  let d := clock_diff w iFrame in
  let ws := snd (estimate (AudioStream.audioDiffAvgCoef (this w))
                          (AudioStream.audioDiffCum (this w))
                          (AudioStream.audioDiffAvgCount (this w))
                          d n (AVFrame.sample_rate iFrame)) in
  let request :=
    swr_set_compensation (AudioStream.m_resampleContext (this w))
                         (Int.sub ws n) ws in
  ws <> n ->
  fst request < 0 ->
  convert iFrame w =
    (AkPacket_empty,
     {| this :=
          AudioStream.set_m_resampleContext (snd request)
            (AudioStream.set_audioDiffCum
               (add d (mul (AudioStream.audioDiffAvgCoef (this w))
                           (AudioStream.audioDiffCum (this w))))
               (this w));
        clock := clock w |},
     [EvSetCompensation (Int.sub ws n) ws]).
Proof.
  intros n d ws request Hne Hrej.
  destruct (estimate_changed _ _ _ _ _ _ Hne) as (Hin & Hcnt & Hval).
  assert (Hws : ws = clamped_target d n (AVFrame.sample_rate iFrame))
    by (unfold ws; rewrite Hval; reflexivity).
  assert (Hthr : ge (qAbs (mul (add d (mul (AudioStream.audioDiffAvgCoef (this w))
                                          (AudioStream.audioDiffCum (this w))))
                               (sub one (AudioStream.audioDiffAvgCoef (this w)))))
                    (div (mul two (of_Z n)) (of_Z (AVFrame.sample_rate iFrame)))
                 = true).
  { revert Hne. unfold ws, estimate. rewrite Hin.
    apply Z.ltb_ge in Hcnt. rewrite Hcnt.
    match goal with |- context [if ?c then _ else _] => destruct c end;
      cbn [snd]; [reflexivity | congruence]. }
  subst request. revert Hrej. rewrite Hws in *. clear Hws Hval ws.
  unfold clamped_target in *. step_body.
  change (sub (mul (of_Z (AVFrame.pts iFrame))
                   (AkFrac_value (AudioStream.timeBase (this w))))
              (clock w)) with d.
  change (AVFrame.nb_samples iFrame) with n.
  change (negb (qIsNaN d) && lt (qAbs d) AV_NOSYNC_THRESHOLD) with (in_sync d).
  rewrite Hin. step_body.
  apply Z.ltb_ge in Hcnt. rewrite Hcnt. step_body.
  rewrite Hthr. step_body.
  match goal with |- context [negb (?q =? n)] => set (target := q) in * end.
  apply Z.eqb_neq in Hne. rewrite Hne. cbn [negb]. step_body.
  destruct (swr_set_compensation (AudioStream.m_resampleContext (this w))
              (Int.sub target n) target) as [r ctx'].
  cbn [fst snd]. intros Hr. apply Z.ltb_lt in Hr.
  step_body. rewrite Hr. step_body. reflexivity.
Qed.

Lemma qBound_inside (lo x hi : Z) : lo <= x <= hi -> qBound lo x hi = x.
Proof.
  intros H. unfold qBound, qMax, qMin.
  destruct (Z.ltb_spec hi x); [lia | ].
  destruct (Z.ltb_spec lo x); lia.
Qed.

Lemma qBound_monotone (lo x hi n : Z) :
  lo <= n <= hi ->
  (n <= x -> n <= qBound lo x hi) /\ (x <= n -> qBound lo x hi <= n).
Proof.
  intros H. unfold qBound, qMax, qMin.
  destruct (Z.ltb_spec hi x);
    match goal with |- context [if ?a <? ?b then _ else _] =>
      destruct (Z.ltb_spec a b) end; lia.
Qed.

Lemma percent_brackets (n : Z) :
  0 <= n -> n * 110 <= Int.INT_MAX ->
  Int.div (Int.mul n (100 - SAMPLE_CORRECTION_PERCENT_MAX)) 100 <= n
    <= Int.div (Int.mul n (100 + SAMPLE_CORRECTION_PERCENT_MAX)) 100.
Proof.
  intros Hn Hmax. unfold SAMPLE_CORRECTION_PERCENT_MAX.
  change (100 - 10) with 90. change (100 + 10) with 110.
  rewrite (percent_exact n 90), (percent_exact n 110) by lia.
  split.
  - apply Z.div_le_upper_bound; lia.
  - apply Z.div_le_lower_bound; lia.
Qed.

(** A [diff] that passes the test of line 148 is a finite number. *)
Lemma in_sync_finite (d : qreal) :
  in_sync d = true ->
  match d with
  | S754_zero _ | S754_finite _ _ _ => True
  | _ => False
  end.
Proof.
  destruct d as [s | [ | ] | | s m e]; intros H;
    try exact I; vm_compute in H; discriminate H.
Qed.

Lemma to_int_mul_zero (d : qreal) :
  in_sync d = true -> to_int (mul d (of_Z 0)) = 0.
Proof.
  intros H. apply in_sync_finite in H.
  destruct d as [s | s | | s m e]; try contradiction; reflexivity.
Qed.

(** X7.  Degenerate frames.  A frame without samples, or one whose
    [sample_rate] is 0 (so that the threshold [2.0 * nb_samples / 0] is
    infinite or NaN), never makes [convert] request compensation, and
    [wantedSamples] stays [nb_samples]: it is what the sync block hands
    on, and no conversion is asked of the resampler for another count. *)
Theorem degenerate_frame_requests_no_compensation
    (iFrame : AVFrame.t) (w : W) :
  let n := AVFrame.nb_samples iFrame in
  0 <= n -> n * 110 <= Int.INT_MAX ->
  n = 0 \/ AVFrame.sample_rate iFrame = 0 ->
  let '(pkt, w', t) := convert iFrame w in
  compensations t = [] /\
  wantedSamples_of w iFrame = n /\
  fst (fst (synchronize iFrame w)) = Next n /\
  incl (conversions t) [(target_frame iFrame n, iFrame)].
Proof.
  intros n Hn Hmax Hdeg. destruct (convert iFrame w) as [[pkt w'] t] eqn:Hconv.
  pose proof (estimate_triple (AudioStream.audioDiffAvgCoef (this w))
                (AudioStream.audioDiffCum (this w))
                (AudioStream.audioDiffAvgCount (this w))
                (clock_diff w iFrame) n (AVFrame.sample_rate iFrame))
    as Hest.
  destruct (convert_observables iFrame w _ _ _ _ _ _ Hest Hconv)
    as (Hcomp & Hincl & _).
  fold n in Hcomp.
  assert (Hws : wantedSamples_of w iFrame = n).
  { unfold wantedSamples_of. fold n.
    match goal with |- ?c = n =>
      set (ws := c) in *; destruct (Z.eq_dec ws n) as [Heq | Hne] end;
      [exact Heq | ].
    destruct (estimate_changed _ _ _ _ _ _ Hne) as (Hin & _ & Hval).
    unfold ws. rewrite Hval. cbn [snd]. unfold clamped_target.
    destruct Hdeg as [H0 | Hr].
    + unfold n in *. rewrite H0.
      change (Int.div (Int.mul 0 (100 - SAMPLE_CORRECTION_PERCENT_MAX)) 100)
        with 0.
      change (Int.div (Int.mul 0 (100 + SAMPLE_CORRECTION_PERCENT_MAX)) 100)
        with 0.
      match goal with |- qBound 0 ?x 0 = 0 =>
        pose proof (qBound_between 0 x 0 ltac:(lia)) end.
      lia.
    + rewrite Hr, (to_int_mul_zero _ Hin).
      unfold Int.add. rewrite Z.add_0_r, int_small
        by (unfold Int.is_int, Int.INT_MIN, Int.INT_MAX in *; lia).
      apply qBound_inside. now apply percent_brackets. }
  unfold wantedSamples_of in Hws. fold n in Hws.
  rewrite Hws in Hcomp, Hincl, Hest. rewrite Z.eqb_refl in Hcomp.
  split; [exact Hcomp | split; [ | split; [ | exact Hincl]]].
  - unfold wantedSamples_of. exact Hws.
  - destruct (synchronize iFrame w) as [[o w1] t1] eqn:Hsyn.
    destruct (synchronize_estimate iFrame w _ _ _ _ _ _ Hest Hsyn)
      as (_ & _ & _ & [(-> & _) | (_ & Hne & _)]);
      [reflexivity | now elim Hne].
Qed.

(** *** The sign of [int(diff * sample_rate)] *)

Lemma signed_round_aux (sx : bool) (mx ex : Z) (lx : location) :
  signed sx (binary_round_aux prec emax sx mx ex lx).
Proof.
  unfold binary_round_aux.
  destruct (shr_fexp prec emax mx ex lx) as [mrs' e'].
  destruct (shr_fexp prec emax
              (round_nearest_even (shr_m mrs') (loc_of_shr_record mrs'))
              e' loc_Exact) as [mrs'' e''].
  destruct (shr_m mrs''); [ | destruct (Z.leb _ _) | ];
    cbn [signed]; trivial.
Qed.

Lemma signed_of_Z_pos (z : Z) : 0 < z -> signed false (of_Z z).
Proof.
  destruct z as [ | p | p]; try lia. intros _.
  unfold of_Z, binary_normalize, binary_round.
  destruct (shl_align p 0 _) as [mz ez]. apply signed_round_aux.
Qed.

Lemma signed_mul (s1 s2 : bool) (x y : qreal) :
  qIsNaN x = false -> signed s1 x -> signed s2 y ->
  signed (xorb s1 s2) (mul x y).
Proof.
  destruct x as [sx | sx | | sx mx ex], y as [sy | sy | | sy my ey];
    cbn [signed qIsNaN mul SFmul]; intros Hn H1 H2; subst;
    try reflexivity; try exact I; try discriminate.
  apply signed_round_aux.
Qed.

Lemma positive_signed (d : qreal) :
  lt zero d = true -> qIsNaN d = false /\ signed false d.
Proof.
  destruct d as [s | [ | ] | | [ | ] m e]; intros H;
    try (vm_compute in H; discriminate H); split; reflexivity.
Qed.

Lemma negative_signed (d : qreal) :
  lt d zero = true -> qIsNaN d = false /\ signed true d.
Proof.
  destruct d as [s | [ | ] | | [ | ] m e]; intros H;
    try (vm_compute in H; discriminate H); split; reflexivity.
Qed.

Lemma trunc_signed (s : bool) (x : qreal) (z : Z) :
  signed s x -> trunc x = Some z -> if s then z <= 0 else 0 <= z.
Proof.
  destruct x as [sx | sx | | sx m e]; cbn [signed trunc]; intros Hs Ht;
    try discriminate; injection Ht as <-; subst.
  - destruct s; lia.
  - assert (H : 0 <= match e with
                     | Zneg p => Z.shiftr (Zpos m) (Zpos p)
                     | _ => Z.shiftl (Zpos m) e
                     end).
    { destruct e; [apply Z.shiftl_nonneg | apply Z.shiftl_nonneg
                   | apply Z.shiftr_nonneg]; lia. }
    destruct s; lia.
Qed.

Lemma to_int_defined (x : qreal) :
  int_conversion_defined x -> trunc x = Some (to_int x).
Proof.
  unfold int_conversion_defined, to_int, Int.is_int.
  destruct (trunc x) as [z | ]; [ | contradiction]. intros [Hlo Hhi].
  apply Z.leb_le in Hlo, Hhi. now rewrite Hlo, Hhi.
Qed.

(** X8.  The compensation follows the drift.  For a frame of
    [0 <= nb_samples <= INT_MAX / 110] samples at a positive rate, when
    [int(diff * sample_rate)] and its sum with [nb_samples] are defined
    ([int] does not overflow): if the frame is ahead of the clock
    ([diff > 0]) a compensation request only adds samples, and if it is
    behind ([diff < 0]) a request only removes samples. *)
Theorem compensation_follows_the_drift (iFrame : AVFrame.t) (w : W) :
  let n := AVFrame.nb_samples iFrame in
  let d := clock_diff w iFrame in
  let x := mul d (of_Z (AVFrame.sample_rate iFrame)) in
  0 <= n -> n * 110 <= Int.INT_MAX ->
  0 < AVFrame.sample_rate iFrame ->
  int_conversion_defined x ->
  Int.is_int (n + to_int x) ->
  let '(pkt, w', t) := convert iFrame w in
  (lt zero d = true ->
   Forall (fun request : Z * Z => 0 < fst request) (compensations t)) /\
  (lt d zero = true ->
   Forall (fun request : Z * Z => fst request < 0) (compensations t)).
Proof.
  intros n d x Hn Hmax Hrate Hdef Hfit.
  destruct (convert iFrame w) as [[pkt w'] t] eqn:Hconv.
  pose proof (estimate_triple (AudioStream.audioDiffAvgCoef (this w))
                (AudioStream.audioDiffCum (this w))
                (AudioStream.audioDiffAvgCount (this w))
                d n (AVFrame.sample_rate iFrame)) as Hest.
  destruct (convert_observables iFrame w _ _ _ _ _ _ Hest Hconv)
    as (Hcomp & _).
  fold n in Hcomp. rewrite Hcomp. clear Hcomp Hest Hconv.
  match goal with |- context [if ?c =? n then _ else _] =>
    set (ws := c) in *; destruct (Z.eqb_spec ws n) as [Heq | Hne] end;
    [split; constructor | ].
  destruct (estimate_changed _ _ _ _ _ _ Hne) as (_ & _ & Hval).
  assert (Hws : ws = clamped_target d n (AVFrame.sample_rate iFrame))
    by (unfold ws; rewrite Hval; reflexivity).
  pose proof (clamped_target_bounds d n (AVFrame.sample_rate iFrame) Hn Hmax)
    as Hb.
  pose proof (percent_brackets n Hn Hmax) as Hpb.
  rewrite <- Hws in Hb. subst x.
  assert (Hmono := qBound_monotone
    (Int.div (Int.mul n (100 - SAMPLE_CORRECTION_PERCENT_MAX)) 100)
    (Int.add n (to_int (mul d (of_Z (AVFrame.sample_rate iFrame)))))
    (Int.div (Int.mul n (100 + SAMPLE_CORRECTION_PERCENT_MAX)) 100)
    n Hpb).
  unfold clamped_target in Hws. rewrite <- Hws in Hmono.
  unfold Int.add in Hmono. rewrite (int_small _ Hfit) in Hmono.
  assert (H1 : n * 110 / 100 <= n * 110)
    by (apply Z.div_le_upper_bound; lia).
  assert (H0 : 0 <= n * 90 / 100) by (apply Z.div_pos; lia).
  assert (Hsub : Int.sub ws n = ws - n).
  { apply int_small. unfold Int.is_int, Int.INT_MIN, Int.INT_MAX in *. lia. }
  pose proof (to_int_defined _ Hdef) as Htr.
  pose proof (signed_of_Z_pos _ Hrate) as Hsr.
  split; intros Hd; (constructor; [ | constructor]); cbn [fst]; rewrite Hsub.
  - destruct (positive_signed d Hd) as [Hnan Hsd].
    pose proof (trunc_signed _ _ _ (signed_mul _ _ _ _ Hnan Hsd Hsr) Htr) as Hz.
    cbn in Hz. lia.
  - destruct (negative_signed d Hd) as [Hnan Hsd].
    pose proof (trunc_signed _ _ _ (signed_mul _ _ _ _ Hnan Hsd Hsr) Htr) as Hz.
    cbn in Hz. lia.
Qed.

End Compensation.

(** ** Runs of [processData] *)

Section Processing.
Context {SwrContext AkFrac : Type} {L : Libav SwrContext AkFrac}.

Local Notation "'Stream'" := (AudioStream.t SwrContext AkFrac).
Local Notation "'W'" := (World SwrContext AkFrac).
Local Notation "'Packet'" := (AkPacket AkFrac).
Local Notation "'Ev'" := (Event AkFrac).

(** One call of [processData], in terms of [convert]. *)
Lemma processData_unfold (frame : AVFrame.t) (w : W) :
  let frame' := AVFrame.set_pts frame (usedTimestamp frame w) in
  forall oPacket w1 t0,
    convert frame' w = (oPacket, w1, t0) ->
    processData frame w =
      (frame',
       {| this := AudioStream.set_m_pts
                    (Int.add64 (usedTimestamp frame w) (AVFrame.nb_samples frame))
                    (this w1);
          clock := clock w1 |},
       t0 ++ [EvOStream oPacket; EvFrameSent]).
Proof.
  intros frame' oPacket w1 t0 Hconv. unfold processData.
  fold (usedTimestamp frame w). fold frame'. now rewrite Hconv.
Qed.

Lemma convert_same_parameters (iFrame : AVFrame.t) (w : W) :
  forall pkt w' t,
    convert iFrame w = (pkt, w', t) -> same_parameters (this w) (this w').
Proof.
  intros pkt w' t Hconv.
  pose proof (estimate_triple (AudioStream.audioDiffAvgCoef (this w))
                (AudioStream.audioDiffCum (this w))
                (AudioStream.audioDiffAvgCount (this w))
                (clock_diff w iFrame) (AVFrame.nb_samples iFrame)
                (AVFrame.sample_rate iFrame)) as Hest.
  destruct (convert_spec iFrame w _ _ _ _ _ _ Hest Hconv)
    as (_ & _ & (H1 & H2 & H3 & H4 & H5 & _ & H7) & _).
  repeat split; assumption.
Qed.

Lemma processData_same_parameters (frame : AVFrame.t) (w : W) :
  same_parameters (this w) (this (snd (fst (processData frame w)))).
Proof.
  destruct (convert (AVFrame.set_pts frame (usedTimestamp frame w)) w)
    as [[oPacket w1] t0] eqn:Hconv.
  rewrite (processData_unfold frame w _ _ _ Hconv). cbn [fst snd this].
  exact (convert_same_parameters _ _ _ _ _ Hconv).
Qed.

Lemma caps_same_parameters (a b : Stream) :
  same_parameters a b -> caps b = caps a.
Proof.
  intros (_ & _ & _ & Hcc & _). unfold caps. now rewrite Hcc.
Qed.

(** X9.  Whatever frames and clock readings a stream is fed, its
    index, id, time base, codec parameters, queue depth and decay
    coefficient stay as they were, and so does the answer of [caps]. *)
Theorem stream_parameters_never_change
    (inputs : list (AVFrame.t * qreal)) (w : W) :
  Forall (fun r : AVFrame.t * W * list Ev =>
            same_parameters (this w) (this (snd (fst r))) /\
            caps (this (snd (fst r))) = caps (this w))
         (processData_all inputs w).
Proof.
  assert (Hgen : forall (w0 w1 : W),
    same_parameters (this w0) (this w1) ->
    Forall (fun r : AVFrame.t * W * list Ev =>
              same_parameters (this w0) (this (snd (fst r))) /\
              caps (this (snd (fst r))) = caps (this w0))
           (processData_all inputs w1)).
  { induction inputs as [ | [frame c] rest IH]; intros w0 w1 H01;
      cbn [processData_all]; [constructor | ].
    pose proof (processData_same_parameters frame (at_clock c w1)) as Hstep.
    cbn [at_clock this] in Hstep.
    assert (H02 : same_parameters (this w0)
                    (this (snd (fst (processData frame (at_clock c w1)))))).
    { destruct H01 as (?&?&?&?&?&?), Hstep as (?&?&?&?&?&?).
      repeat split; congruence. }
    constructor.
    - split; [exact H02 | now apply caps_same_parameters].
    - apply IH. exact H02. }
  apply Hgen. repeat split.
Qed.

Lemma signals_app (t1 t2 : list Ev) :
  signals (t1 ++ t2) = signals t1 ++ signals t2.
Proof. apply filter_app. Qed.

Lemma emitted_app (t1 t2 : list Ev) :
  emitted (t1 ++ t2) = emitted t1 ++ emitted t2.
Proof. apply flat_map_app. Qed.

Lemma silent_trace (t : list Ev) :
  Forall (fun e : Ev =>
            match e with
            | EvOStream _ | EvFrameSent => False
            | _ => True
            end) t ->
  signals t = [] /\ emitted t = [].
Proof.
  induction 1 as [ | e t He _ [IH1 IH2]]; [now split | ].
  destruct e; try contradiction; cbn; now split.
Qed.

(** The signals of one call of [processData]. *)
Lemma processData_signals (frame : AVFrame.t) (w : W) :
  let oPacket :=
    fst (fst (convert (AVFrame.set_pts frame (usedTimestamp frame w)) w)) in
  signals (snd (processData frame w)) = [EvOStream oPacket; EvFrameSent] /\
  emitted (snd (processData frame w)) = [oPacket].
Proof.
  destruct (convert (AVFrame.set_pts frame (usedTimestamp frame w)) w)
    as [[oPacket w1] t0] eqn:Hconv.
  rewrite (processData_unfold frame w _ _ _ Hconv). cbn [fst snd].
  destruct (silent_trace t0 (convert_emits_no_signal _ _ _ _ _ Hconv))
    as [Hs He].
  rewrite signals_app, emitted_app, Hs, He. now split.
Qed.

(** X10.  Over any run, the signals come in pairs: one [oStream] and
    then one [frameSent] per frame, in arrival order and nothing else, so
    the sink receives exactly as many packets (empty ones included) as
    there are frames. *)
Theorem one_packet_and_one_notification_per_frame
    (inputs : list (AVFrame.t * qreal)) (w : W) :
  let t := trace_of (processData_all inputs w) in
  signals t = flat_map (fun p => [EvOStream p; EvFrameSent]) (emitted t) /\
  length (emitted t) = length inputs.
Proof.
  revert w. induction inputs as [ | [frame c] rest IH]; intros w;
    [now split | ].
  cbn [processData_all]. unfold trace_of in *. cbn [map concat length].
  destruct (processData_signals frame (at_clock c w)) as [Hs He].
  destruct (IH (snd (fst (processData frame (at_clock c w))))) as [IHs IHl].
  cbv zeta in IHs, IHl.
  rewrite signals_app, emitted_app, Hs, He, IHs.
  cbn [app flat_map length]. split; [reflexivity | now rewrite IHl].
Qed.

(** X11.  The packet [processData] emits for a frame, when it is not
    empty, is stamped with the timestamp used for the frame (its own, or
    the tracked [m_pts] when it has none) and with the time base, index
    and id of the stream; its caps are valid, unaligned and at the
    frame's rate. *)
Theorem emitted_packet_carries_the_used_timestamp
    (frame : AVFrame.t) (w : W) :
  let '(frame', w', t) := processData frame w in
  exists oPacket,
    emitted t = [oPacket] /\
    match oPacket with
    | AkPacket_empty => True
    | AkPacket_audio p =>
        AkAudioPacket.pts p = usedTimestamp frame w /\
        AkAudioPacket.timeBase p = AudioStream.timeBase (this w) /\
        AkAudioPacket.index p = Int.int (AudioStream.index (this w)) /\
        AkAudioPacket.id p = AudioStream.id (this w) /\
        AkAudioCaps.isValid (AkAudioPacket.caps p) = true /\
        AkAudioCaps.align (AkAudioPacket.caps p) = false /\
        AkAudioCaps.rate (AkAudioPacket.caps p) = AVFrame.sample_rate frame
    end.
Proof.
  destruct (processData_signals frame w) as [_ He].
  destruct (processData frame w) as [[frame' w'] t]. cbn [snd] in He.
  eexists. split; [exact He | ].
  destruct (convert (AVFrame.set_pts frame (usedTimestamp frame w)) w)
    as [[oPacket w1] t0] eqn:Hconv.
  cbn [fst].
  destruct (convert_configurations _ _ _ _ _ Hconv)
    as [(_ & _ & -> & _) | (_ & _ & Hp)]; [exact I | ].
  destruct oPacket as [ | p]; [exact I | ].
  rewrite Hp. cbn. repeat split.
Qed.

Lemma sizes_nonneg (inputs : list (AVFrame.t * qreal)) :
  Forall (fun i : AVFrame.t * qreal =>
            AVFrame.pts (fst i) = AV_NOPTS_VALUE /\
            0 <= AVFrame.nb_samples (fst i)) inputs ->
  0 <= fold_right Z.add 0 (map (fun i => AVFrame.nb_samples (fst i)) inputs).
Proof.
  induction 1 as [ | i l [_ Hi] _ IH]; cbn; lia.
Qed.

(** X12.  Timestamp continuity.  Frames that all come without a
    timestamp are stamped back to back: the first gets the tracked
    [m_pts], each next one the timestamp of its predecessor plus the
    predecessor's [nb_samples], whatever [convert] makes of them,
    provided the sizes are not negative and the last sum fits in 64
    bits. *)
Theorem unstamped_frames_are_stamped_back_to_back
    (inputs : list (AVFrame.t * qreal)) (w : W) :
  Forall (fun i : AVFrame.t * qreal =>
            AVFrame.pts (fst i) = AV_NOPTS_VALUE /\
            0 <= AVFrame.nb_samples (fst i)) inputs ->
  Int.INT64_MIN <= AudioStream.m_pts (this w) ->
  AudioStream.m_pts (this w)
    + fold_right Z.add 0 (map (fun i => AVFrame.nb_samples (fst i)) inputs)
    <= Int.INT64_MAX ->
  map (fun r : AVFrame.t * W * list Ev => AVFrame.pts (fst (fst r)))
      (processData_all inputs w)
  = continuous_timestamps (AudioStream.m_pts (this w))
      (map (fun i => AVFrame.nb_samples (fst i)) inputs).
Proof.
  revert w. induction inputs as [ | [frame c] rest IH]; intros w Hall Hlo Hhi;
    [reflexivity | ].
  inversion Hall as [ | i l [Hpts Hn] Hrest]; subst. cbn [fst] in Hpts, Hn.
  cbn [map fold_right fst] in Hhi.
  pose proof (sizes_nonneg rest Hrest) as Hsum.
  cbn [processData_all map continuous_timestamps fst].
  destruct (convert (AVFrame.set_pts frame (usedTimestamp frame (at_clock c w)))
                    (at_clock c w)) as [[oPacket w1] t0] eqn:Hconv.
  rewrite (processData_unfold frame (at_clock c w) _ _ _ Hconv).
  cbn [fst snd].
  assert (Hused : usedTimestamp frame (at_clock c w) = AudioStream.m_pts (this w)).
  { unfold usedTimestamp. rewrite Hpts, Z.eqb_refl. reflexivity. }
  rewrite Hused. cbn [AVFrame.set_pts AVFrame.pts]. f_equal.
  assert (Hadd : Int.add64 (AudioStream.m_pts (this w)) (AVFrame.nb_samples frame)
                 = AudioStream.m_pts (this w) + AVFrame.nb_samples frame).
  { unfold Int.add64, Int.int64, Int.wrap.
    unfold Int.INT64_MIN, Int.INT64_MAX in *. rewrite Z.mod_small; lia. }
  rewrite IH; cbn [this AudioStream.set_m_pts AudioStream.m_pts];
    rewrite ?Hadd; try assumption; try lia.
  reflexivity.
Qed.

End Processing.

(** ** The negotiated target is always a supported one *)

Section Negotiation.
Context {SwrContext AkFrac : Type} {L : Libav SwrContext AkFrac}.

Local Notation "'Stream'" := (AudioStream.t SwrContext AkFrac).
Local Notation "'W'" := (World SwrContext AkFrac).

Lemma negotiated_format_supported (iFormat : Z) :
  In (@negotiated_format _ _ L iFormat) supported_formats.
Proof.
  rewrite negotiated_format_spec. unfold spec_format.
  destruct (existsb _ supported_formats) eqn:He.
  - now apply existsb_eqb_In.
  - cbn. auto.
Qed.

Lemma negotiated_layout_supported (l : Z) :
  In (negotiated_layout l) supported_layouts.
Proof.
  rewrite negotiated_layout_spec. unfold spec_layout.
  destruct (existsb _ supported_layouts) eqn:He.
  - now apply existsb_eqb_In.
  - cbn. auto.
Qed.

Lemma supported_format_known (f : Z) :
  In f supported_formats ->
  QMap.value sampleFormats f SampleFormat_none <> SampleFormat_none.
Proof.
  intros [<- | [<- | [<- | [<- | []]]]]; vm_compute; discriminate.
Qed.

Lemma supported_layout_known (l : Z) :
  In l supported_layouts ->
  QMap.value channelLayouts l Layout_none <> Layout_none /\
  negotiated_layout l = l /\
  Int.int64 l = l.
Proof.
  intros [<- | [<- | []]]; vm_compute; repeat split; discriminate.
Qed.

(** X13.  Whatever format and layout come in, and whatever
    [av_get_packed_sample_fmt] answers (the invalid format included),
    the negotiated format is one of U8, S16, S32, FLT and the negotiated
    layout is mono or stereo; negotiating twice changes nothing; and no
    lookup of the two tables misses: neither [caps] nor a produced packet
    ever carries the default (none) format or layout, and the layout
    handed to the resampler is the mask itself. *)
Theorem negotiation_always_lands_on_a_supported_target
    (a : Stream) (iFrame : AVFrame.t) (w : W) :
  (forall f, In (@negotiated_format _ _ L f) supported_formats) /\
  (forall l, In (negotiated_layout l) supported_layouts /\
             negotiated_layout (negotiated_layout l) = negotiated_layout l /\
             Int.int64 (negotiated_layout l) = negotiated_layout l) /\
  AkAudioCaps.format (caps a) <> SampleFormat_none /\
  AkAudioCaps.layout (caps a) <> Layout_none /\
  match fst (fst (convert iFrame w)) with
  | AkPacket_empty => True
  | AkPacket_audio p =>
      AkAudioCaps.format (AkAudioPacket.caps p) <> SampleFormat_none /\
      AkAudioCaps.layout (AkAudioPacket.caps p) <> Layout_none
  end.
Proof.
  split; [exact negotiated_format_supported | ].
  split.
  { intros l. pose proof (negotiated_layout_supported l) as Hl.
    destruct (supported_layout_known _ Hl) as (_ & H2 & H3). auto. }
  split; [ | split].
  - unfold caps. cbn [AkAudioCaps.format].
    apply supported_format_known, negotiated_format_supported.
  - destruct (caps_layout_key
                (AVCodecContext.channel_layout (AudioStream.codecContext a)))
      as [Hv _].
    unfold caps. cbn [AkAudioCaps.layout]. rewrite Hv.
    apply supported_layout_known, negotiated_layout_supported.
  - destruct (convert iFrame w) as [[pkt w'] t] eqn:Hconv. cbn [fst].
    destruct (convert_configurations _ _ _ _ _ Hconv)
      as [(_ & _ & -> & _) | (_ & _ & Hp)]; [exact I | ].
    destruct pkt as [ | p]; [exact I | ].
    rewrite Hp. cbn [AkAudioPacket.caps]. unfold packet_caps.
    cbn [AkAudioCaps.format AkAudioCaps.layout]. split.
    + apply supported_format_known, negotiated_format_supported.
    + apply supported_layout_known, negotiated_layout_supported.
Qed.

End Negotiation.

(** ** Frame ingestion *)

Section IngestionProperties.
Context {Codec AVPacket : Type} {D : Decoder Codec AVPacket}.

(** The loop enqueues frames only, and exactly those the decoder hands
    out before it fails. *)
Lemma receive_frames_sound (fuel : nat) :
  forall (c c' : Codec) (enqueued : list (option AVFrame.t)),
    receive_frames fuel c = Some (c', enqueued) ->
    exists frames, yields c frames c' /\ enqueued = map Some frames.
Proof.
  induction fuel as [ | fuel IH]; intros c c' q; cbn [receive_frames];
    [discriminate | ].
  destruct (avcodec_receive_frame c) as [[r c1] iFrame] eqn:Hrecv.
  destruct (Z.ltb_spec r 0) as [Hr | Hr].
  - intros [= <- <-]. exists []. split; [ | reflexivity].
    now apply (yields_end c c1 r iFrame).
  - destruct (receive_frames fuel c1) as [[c2 q2] | ] eqn:Hrest;
      [ | discriminate].
    intros [= <- <-]. destruct (IH _ _ _ Hrest) as (frames & Hy & ->).
    exists (iFrame :: frames). split; [ | reflexivity].
    now apply (yields_frame c c1 c2 r iFrame frames).
Qed.

Lemma receive_frames_complete (c c' : Codec) (frames : list AVFrame.t) :
  yields c frames c' ->
  forall fuel,
    receive_frames fuel c =
      if (length frames <? fuel)%nat then Some (c', map Some frames)
      else None.
Proof.
  induction 1 as [c c1 r iFrame Hrecv Hr
                 | c c1 c' r iFrame frames Hrecv Hr _ IH];
    intros [ | fuel]; cbn [receive_frames length]; try reflexivity;
    rewrite Hrecv.
  - apply Z.ltb_lt in Hr. now rewrite Hr.
  - apply Z.ltb_ge in Hr. rewrite Hr, IH.
    change (S (length frames) <? S fuel)%nat with (length frames <? fuel)%nat.
    now destruct (length frames <? fuel)%nat.
Qed.

(** X14.  The end marker.  Three paths of [processPacket] reach no
    loop and return whatever the decoder would do next: on an invalid
    stream nothing is enqueued and the decoder is not touched; a NULL
    packet on a valid stream enqueues the NULL frame, alone, and does
    not touch the decoder; a packet the decoder refuses enqueues
    nothing.  And whenever [processPacket] returns, the NULL frame is
    among what it has enqueued only for a NULL packet on a valid
    stream. *)
Theorem end_marker_only_for_the_null_packet (fuel : nat) (c : Codec) :
  (forall packet, processPacket fuel false packet c = Some (c, [])) /\
  processPacket fuel true None c = Some (c, [None]) /\
  (forall p, fst (avcodec_send_packet c p) < 0 ->
             processPacket fuel true (Some p) c
               = Some (snd (avcodec_send_packet c p), [])) /\
  (forall isValid packet c' enqueued,
     processPacket fuel isValid packet c = Some (c', enqueued) ->
     (In None enqueued <-> isValid = true /\ packet = None)).
Proof.
  split; [reflexivity | split; [reflexivity | split]].
  - intros p Hr. unfold processPacket. cbn [negb].
    destruct (avcodec_send_packet c p) as [r c1]. cbn [fst snd] in *.
    apply Z.ltb_lt in Hr. now rewrite Hr.
  - intros isValid packet c' enqueued. unfold processPacket.
    destruct isValid; cbn [negb].
    + destruct packet as [p | ].
      * destruct (avcodec_send_packet c p) as [r c1].
        destruct (r <? 0).
        -- intros [= <- <-].
           split; [intros [] | intros [_ H]; discriminate H].
        -- intros Hloop.
           destruct (receive_frames_sound _ _ _ _ Hloop) as (frames & _ & ->).
           split; [ | intros [_ H]; discriminate H].
           intros Hin. apply in_map_iff in Hin.
           destruct Hin as (f & Hf & _). discriminate Hf.
      * intros [= <- <-]. split; [now split | intros _; now left].
    + intros [= <- <-].
      split; [intros [] | intros [H _]; discriminate H].
Qed.

(** X15.  Draining the decoder.  On a valid stream, when the decoder
    accepts the packet and then hands out the frames [frames] before it
    fails, [processPacket] enqueues exactly these frames, in this order,
    and returns: the loop of lines 117-127 ends after
    [length frames + 1] calls of [avcodec_receive_frame] (and not
    before).  Conversely, whatever [processPacket] enqueues for an
    accepted packet is what the decoder handed out. *)
Theorem processPacket_drains_the_decoder (p : AVPacket) (c c' : Codec)
    (frames : list AVFrame.t) :
  0 <= fst (avcodec_send_packet c p) ->
  yields (snd (avcodec_send_packet c p)) frames c' ->
  (forall fuel, (length frames < fuel)%nat ->
     processPacket fuel true (Some p) c = Some (c', map Some frames)) /\
  (forall fuel, (fuel <= length frames)%nat ->
     processPacket fuel true (Some p) c = None) /\
  (forall fuel c'' enqueued,
     processPacket fuel true (Some p) c = Some (c'', enqueued) ->
     c'' = c' /\ enqueued = map Some frames).
Proof.
  intros Hsend Hy. unfold processPacket. cbn [negb].
  destruct (avcodec_send_packet c p) as [r c1]. cbn [fst snd] in *.
  apply Z.ltb_ge in Hsend. rewrite Hsend.
  pose proof (receive_frames_complete _ _ _ Hy) as Hc.
  split; [ | split].
  - intros fuel Hf. rewrite Hc. apply Nat.ltb_lt in Hf. now rewrite Hf.
  - intros fuel Hf. rewrite Hc. apply Nat.ltb_ge in Hf. now rewrite Hf.
  - intros fuel c'' q. rewrite Hc.
    destruct (length frames <? fuel)%nat; [ | discriminate].
    intros [= <- <-]. now split.
Qed.

End IngestionProperties.

(** ** The further properties at concrete inputs *)

Lemma compensation_request_shape_witness :
  let iFrame := Mock.frame 1 in
  let w := Mock.after Mock.libav 20 1 zero in
  let '(pkt, w', t) := convert (L := Mock.libav) iFrame w in
  (length (compensations t) <= 1)%nat /\
  Forall (fun request : Z * Z =>
            let '(sample_delta, distance) := request in
            distance = 1024 + sample_delta /\
            sample_delta <> 0 /\
            0 <= distance /\
            1024 * 90 / 100 <= distance <= 1024 * 110 / 100 /\
            in_sync (clock_diff (L := Mock.libav) w iFrame) = true /\
            AUDIO_DIFF_AVG_NB <= AudioStream.audioDiffAvgCount (this w))
         (compensations t).
Proof.
  apply (compensation_request_shape (L := Mock.libav)
           (Mock.frame 1) (Mock.after Mock.libav 20 1 zero)).
  - vm_compute. discriminate.
  - vm_compute. discriminate.
Defined.

Lemma no_compensation_during_warm_up_witness :
  Forall (fun r => compensations (snd r) = [])
         (convert_all (L := Mock.libav) (repeat (Mock.frame 1, Mock.c0_2) 20)
                      (Mock.fresh Mock.libav)).
Proof.
  apply (no_compensation_during_warm_up (L := Mock.libav)
           (repeat (Mock.frame 1, Mock.c0_2) 20) (Mock.fresh Mock.libav)).
  - vm_compute. discriminate.
  - vm_compute. discriminate.
Defined.

Lemma no_compensation_after_discontinuity_witness :
  Forall (fun r => compensations (snd r) = [])
         (convert_all (L := Mock.libav)
            ((Mock.frame 1000, zero) :: repeat (Mock.frame 1, zero) 20)
            (Mock.after Mock.libav 20 1 zero)).
Proof.
  apply (no_compensation_after_discontinuity (L := Mock.libav)
           (Mock.frame 1000) zero (repeat (Mock.frame 1, zero) 20)
           (Mock.after Mock.libav 20 1 zero)).
  - vm_compute. reflexivity.
  - vm_compute. repeat constructor.
Defined.

(** The 21st frame with [diff = 0.1] against a resampler that rejects
    the request for 1126 samples. *)
Lemma rejected_compensation_ends_convert_witness :
  let L := Fixtures.libav_rejecting in
  let w := Mock.after L 20 1 zero in
  let d := clock_diff (L := L) w (Mock.frame 1) in
  let ws := snd (estimate (AudioStream.audioDiffAvgCoef (this w))
                          (AudioStream.audioDiffCum (this w))
                          (AudioStream.audioDiffAvgCount (this w))
                          d 1024 48000) in
  let request :=
    swr_set_compensation (Libav := L)
      (AudioStream.m_resampleContext (this w)) (Int.sub ws 1024) ws in
  convert (L := L) (Mock.frame 1) w =
    (AkPacket_empty,
     {| this :=
          AudioStream.set_m_resampleContext (snd request)
            (AudioStream.set_audioDiffCum
               (add d (mul (AudioStream.audioDiffAvgCoef (this w))
                           (AudioStream.audioDiffCum (this w))))
               (this w));
        clock := clock w |},
     [EvSetCompensation (Int.sub ws 1024) ws]).
Proof.
  apply (rejected_compensation_ends_convert (L := Fixtures.libav_rejecting)
           (Mock.frame 1) (Mock.after Fixtures.libav_rejecting 20 1 zero)).
  - vm_compute. discriminate.
  - vm_compute. reflexivity.
Defined.

(** A frame at 0 Hz after the history is full. *)
Lemma degenerate_frame_requests_no_compensation_witness :
  let iFrame := Fixtures.sized 1024 0 in
  let w := Mock.after Mock.libav 20 1 zero in
  let '(pkt, w', t) := convert (L := Mock.libav) iFrame w in
  compensations t = [] /\
  wantedSamples_of (L := Mock.libav) w iFrame = 1024 /\
  fst (fst (synchronize (L := Mock.libav) iFrame w)) = Next 1024 /\
  incl (conversions t) [(target_frame (L := Mock.libav) iFrame 1024, iFrame)].
Proof.
  apply (degenerate_frame_requests_no_compensation (L := Mock.libav)
           (Fixtures.sized 1024 0) (Mock.after Mock.libav 20 1 zero)).
  - vm_compute. discriminate.
  - vm_compute. discriminate.
  - right. reflexivity.
Defined.

(** The 21st frame 0.1 s ahead of the clock asks for 102 more samples,
    the 21st frame 0.1 s behind it for 103 fewer. *)
Lemma compensation_follows_the_drift_witness :
  Forall (fun request : Z * Z => 0 < fst request)
         (compensations
            (snd (convert (L := Mock.libav) (Mock.frame 1)
                    (Mock.after Mock.libav 20 1 zero))))
  /\
  Forall (fun request : Z * Z => fst request < 0)
         (compensations
            (snd (convert (L := Mock.libav) (Mock.frame 1)
                    (Mock.after Mock.libav 20 1 Mock.c0_2)))).
Proof.
  split.
  - generalize (compensation_follows_the_drift (L := Mock.libav)
                  (Mock.frame 1) (Mock.after Mock.libav 20 1 zero)).
    cbv zeta.
    destruct (convert (Mock.frame 1) (Mock.after Mock.libav 20 1 zero))
      as [[pkt w'] t].
    intros H. apply H; vm_compute; try reflexivity;
      try discriminate; split; discriminate.
  - generalize (compensation_follows_the_drift (L := Mock.libav)
                  (Mock.frame 1) (Mock.after Mock.libav 20 1 Mock.c0_2)).
    cbv zeta.
    destruct (convert (Mock.frame 1) (Mock.after Mock.libav 20 1 Mock.c0_2))
      as [[pkt w'] t].
    intros H. apply H; vm_compute; try reflexivity;
      try discriminate; split; discriminate.
Defined.

Lemma unstamped_frames_are_stamped_back_to_back_witness :
  map (fun r => AVFrame.pts (fst (fst r)))
      (processData_all (L := Mock.libav)
         [(Fixtures.unstamped 1024, zero); (Fixtures.unstamped 512, zero);
          (Fixtures.unstamped 1024, zero)]
         (Mock.fresh Mock.libav))
  = [0; 1024; 1536].
Proof.
  apply (unstamped_frames_are_stamped_back_to_back (L := Mock.libav)
           [(Fixtures.unstamped 1024, zero); (Fixtures.unstamped 512, zero);
            (Fixtures.unstamped 1024, zero)]
           (Mock.fresh Mock.libav)).
  - repeat constructor; vm_compute; discriminate.
  - vm_compute. discriminate.
  - vm_compute. discriminate.
Defined.

Lemma end_marker_only_for_the_null_packet_witness :
  let c := [Mock.frame 1] in
  processPacket (D := Fixtures.queue_decoder) 0 true (Some []) c
    = Some (c, []) /\
  (In None [@None AVFrame.t]
   <-> true = true /\ @None (list AVFrame.t) = None).
Proof.
  intros c.
  destruct (end_marker_only_for_the_null_packet
              (D := Fixtures.queue_decoder) 0 c) as (_ & _ & Hrefused & Honly).
  split.
  - apply (Hrefused []). vm_compute. reflexivity.
  - apply (Honly true None c [None]). reflexivity.
Defined.

(** A packet that decodes to two frames. *)
Lemma processPacket_drains_the_decoder_witness :
  processPacket (D := Fixtures.queue_decoder) 3 true
                (Some [Mock.frame 1; Mock.frame 1025]) []
  = Some ([], [Some (Mock.frame 1); Some (Mock.frame 1025)]).
Proof.
  refine (proj1 (processPacket_drains_the_decoder
                   (D := Fixtures.queue_decoder)
                   [Mock.frame 1; Mock.frame 1025] [] []
                   [Mock.frame 1; Mock.frame 1025] _ _) 3%nat _).
  - vm_compute. discriminate.
  - apply (yields_frame (D := Fixtures.queue_decoder)
             [Mock.frame 1; Mock.frame 1025] [Mock.frame 1025] []
             0 (Mock.frame 1) [Mock.frame 1025] eq_refl); [lia | ].
    apply (yields_frame (D := Fixtures.queue_decoder)
             [Mock.frame 1025] [] [] 0 (Mock.frame 1025) [] eq_refl); [lia | ].
    apply (yields_end (D := Fixtures.queue_decoder) [] [] (-11) (Mock.frame 0)
             eq_refl). lia.
  - cbn. lia.
Defined.
